(** * EncryptedBidding: sealed-bid ledger with a homomorphic running minimum

    A shallow embedding of the [EncryptedBidding] Solidity contract
    (src/deploy/deploy_EncryptedBidding.ts, second document of the file)
    and the properties of its bid ledger and minimum evaluator.

    The homomorphic-encryption library ([FHE.sol]) is an external
    collaborator of the contract: it is taken as a parameter
    ([FHEService]) whose operations may be refused.  Two instances run
    the contract on concrete inputs: a plaintext-simulating one that
    refuses nothing ([Stub.service]) and one that caps the depth of
    chained operations ([Capped.service]). *)

From stdpp Require Import gmap list strings.
From Stdlib Require Import NArith Lia.

Local Open Scope N_scope.

(** Solidity [address] (160-bit) and [uint256] values are unsigned
    integers; no arithmetic is performed on them by the contract. *)
Abbreviation address := N (only parsing).
Abbreviation uint256 := N (only parsing).
Abbreviation bytes := (list Byte.byte) (only parsing).

(** ** The ciphertext / authorization service consumed by the contract *)

(** Operations of [FHE.sol] that the contract calls.  [euint32] and
    [ebool] are ciphertext handles.  [FHE_fromExternal] is [None] when
    the input proof is rejected, and [FHE_lt] and [FHE_select] are
    [None] when the coprocessor refuses the operation (its limit on the
    complexity of one transaction is exceeded, or an operand is not
    allowed): in each case the library reverts.  [decrypt32] and
    [decryptBool] are the plaintexts behind the handles; the contract
    never calls them. *)
Class FHEService : Type := {
  euint32 : Type;
  ebool : Type;
  externalEuint32 : Type;
  euint32_zero : euint32;
  FHE_asEuint32 : N → euint32;
  FHE_fromExternal : address → address → externalEuint32 → bytes → option euint32;
  FHE_lt : euint32 → euint32 → option ebool;
  FHE_select : ebool → euint32 → euint32 → option euint32;
  decrypt32 : euint32 → N;
  decryptBool : ebool → bool;
}.

(** Contracts of the comparison and selection capabilities, for the
    calls the service accepts: [FHE_lt] is the strict order on
    plaintexts (ties are "not less"), [FHE_select] picks its second
    argument when the condition encodes true. *)
Class FHELaws (F : FHEService) : Prop := {
  decrypt_lt : ∀ (a b : euint32) (c : ebool),
    FHE_lt a b = Some c →
    decryptBool c = (decrypt32 a <? decrypt32 b);
  decrypt_select : ∀ (c : ebool) (a b r : euint32),
    FHE_select c a b = Some r →
    decrypt32 r = if decryptBool c then decrypt32 a else decrypt32 b;
}.

(** ** Contract state, effects and the execution monad *)

Inductive Error : Set :=
| InvalidCiphertextProof   (* FHE.fromExternal rejected the input proof *)
| EmptyLedger              (* require(_bidders.length > 0, "No bids submitted") *)
| UnauthorizedPrincipal    (* require(_organizer != address(0), ...) *)
| ArrayOutOfBounds         (* Solidity panic 0x32 on _bidders[i] *)
| FHEOperationReverted     (* FHE.lt or FHE.select reverted *)
| OutOfGas.                (* the loop budget is exhausted *)

Inductive Event : Set :=
| BidSubmitted (bidder : address) (timestamp : uint256)
| LowestBidCalculated (lowestBidder : address) (timestamp : uint256).

Record Env : Set := {
  this : address;             (* address(this) *)
  msg_sender : address;       (* msg.sender *)
  block_timestamp : uint256;  (* block.timestamp *)
}.

Section Contract.
Context {F : FHEService}.

Record Bid : Type := {
  encryptedPrice : euint32;
  bidder : address;
  timestamp : uint256;
  exists_ : bool;
}.

(** The value a Solidity mapping yields for a key never written. *)
Definition Bid_zero : Bid :=
  {| encryptedPrice := euint32_zero; bidder := 0; timestamp := 0; exists_ := false |}.

Record Storage : Type := {
  organizer : address;
  _bids : gmap N Bid;
  _bidders : list address;
  _lowestBid : euint32;
  _lowestBidder : address;
  _lowestBidCalculated : bool;
  _zeroEuint32 : euint32;
}.

(** [_bids[a]] as an rvalue. *)
Definition bid_at (s : Storage) (a : address) : Bid :=
  default Bid_zero (_bids s !! a).

(** Calls the contract makes to the outside: ACL grants and logs. *)
Inductive Effect : Type :=
| Allow (ct : euint32) (account : address)
| Emit (e : Event).

Inductive Outcome (A : Type) : Type :=
| Done (a : A) (s : Storage) (out : list Effect)
| Reverted (e : Error) (s : Storage) (out : list Effect).
Global Arguments Done {A} a s out.
Global Arguments Reverted {A} e s out.

(** A contract function body: runs from a storage to an outcome.  A
    [Reverted] outcome carries the storage and effects reached when the
    failure was raised, before the host rolls them back. *)
Definition Exec (A : Type) : Type := Storage → Outcome A.

Definition exec_ret {A} (a : A) : Exec A := λ s, Done a s [].

Definition exec_bind {A B} (k : A → Exec B) (m : Exec A) : Exec B := λ s,
  match m s with
  | Done a s1 o1 =>
      match k a s1 with
      | Done b s2 o2 => Done b s2 (o1 ++ o2)
      | Reverted e s2 o2 => Reverted e s2 (o1 ++ o2)
      end
  | Reverted e s1 o1 => Reverted e s1 o1
  end.

Global Instance Exec_ret : MRet Exec := @exec_ret.
Global Instance Exec_bind : MBind Exec := @exec_bind.

Definition get : Exec Storage := λ s, Done s s [].
Definition modify (f : Storage → Storage) : Exec unit := λ s, Done tt (f s) [].
Definition revert {A} (e : Error) : Exec A := λ s, Reverted e s [].
Definition effect (x : Effect) : Exec unit := λ s, Done tt s [x].
Definition require (b : bool) (e : Error) : Exec unit :=
  if b then mret tt else revert e.

(** Storage writes, one per assigned lvalue of the source. *)
Definition set_bid (a : address) (b : Bid) (s : Storage) : Storage :=
  {| organizer := organizer s; _bids := <[a := b]> (_bids s);
     _bidders := _bidders s; _lowestBid := _lowestBid s;
     _lowestBidder := _lowestBidder s;
     _lowestBidCalculated := _lowestBidCalculated s;
     _zeroEuint32 := _zeroEuint32 s |}.

Definition set_bid_encryptedPrice (a : address) (p : euint32) (s : Storage) : Storage :=
  let b := bid_at s a in
  set_bid a {| encryptedPrice := p; bidder := bidder b;
               timestamp := timestamp b; exists_ := exists_ b |} s.

Definition set_bid_timestamp (a : address) (t : uint256) (s : Storage) : Storage :=
  let b := bid_at s a in
  set_bid a {| encryptedPrice := encryptedPrice b; bidder := bidder b;
               timestamp := t; exists_ := exists_ b |} s.

Definition push_bidder (a : address) (s : Storage) : Storage :=
  {| organizer := organizer s; _bids := _bids s;
     _bidders := _bidders s ++ [a]; _lowestBid := _lowestBid s;
     _lowestBidder := _lowestBidder s;
     _lowestBidCalculated := _lowestBidCalculated s;
     _zeroEuint32 := _zeroEuint32 s |}.

Definition set_lowestBid (p : euint32) (s : Storage) : Storage :=
  {| organizer := organizer s; _bids := _bids s;
     _bidders := _bidders s; _lowestBid := p;
     _lowestBidder := _lowestBidder s;
     _lowestBidCalculated := _lowestBidCalculated s;
     _zeroEuint32 := _zeroEuint32 s |}.

Definition set_lowestBidder (a : address) (s : Storage) : Storage :=
  {| organizer := organizer s; _bids := _bids s;
     _bidders := _bidders s; _lowestBid := _lowestBid s;
     _lowestBidder := a;
     _lowestBidCalculated := _lowestBidCalculated s;
     _zeroEuint32 := _zeroEuint32 s |}.

Definition set_lowestBidCalculated (b : bool) (s : Storage) : Storage :=
  {| organizer := organizer s; _bids := _bids s;
     _bidders := _bidders s; _lowestBid := _lowestBid s;
     _lowestBidder := _lowestBidder s;
     _lowestBidCalculated := b;
     _zeroEuint32 := _zeroEuint32 s |}.

(** [_bidders[i]], with the bounds check Solidity compiles in. *)
Definition bidders_at (i : nat) : Exec address := λ s,
  match _bidders s !! i with
  | Some a => Done a s []
  | None => Reverted ArrayOutOfBounds s []
  end.

(** Library calls with an effect or a failure. *)
Definition fromExternal (env : Env) (h : externalEuint32) (proof : bytes) : Exec euint32 :=
  match FHE_fromExternal (this env) (msg_sender env) h proof with
  | Some ct => mret ct
  | None => revert InvalidCiphertextProof
  end.
Definition liftFHE {A} (r : option A) : Exec A :=
  match r with
  | Some a => mret a
  | None => revert FHEOperationReverted
  end.
Definition FHE_allowThis (env : Env) (ct : euint32) : Exec unit :=
  effect (Allow ct (this env)).
Definition FHE_allow (ct : euint32) (account : address) : Exec unit :=
  effect (Allow ct account).
Definition emit (e : Event) : Exec unit := effect (Emit e).

(** ** The contract *)

(** [constructor(address _organizer)] *)
Definition initial_storage (_organizer : address) : Storage :=
  {| organizer := _organizer; _bids := ∅; _bidders := [];
     _lowestBid := euint32_zero; _lowestBidder := 0;
     _lowestBidCalculated := false;
     _zeroEuint32 := FHE_asEuint32 0 |}.

Definition constructor (_organizer : address) : option Storage :=
  if (_organizer =? 0) then None else Some (initial_storage _organizer).

(** [submitBid(externalEuint32 encryptedPrice, bytes calldata inputProof)] *)
Definition submitBid (env : Env) (encryptedPrice_ : externalEuint32)
    (inputProof : bytes) : Exec unit :=
  price ← fromExternal env encryptedPrice_ inputProof;
  s ← get;
  (if exists_ (bid_at s (msg_sender env)) then
     modify (set_bid_encryptedPrice (msg_sender env) price);;
     modify (set_bid_timestamp (msg_sender env) (block_timestamp env))
   else
     modify (set_bid (msg_sender env)
               {| encryptedPrice := price; bidder := msg_sender env;
                  timestamp := block_timestamp env; exists_ := true |});;
     modify (push_bidder (msg_sender env)));;
  s ← get;
  FHE_allowThis env (encryptedPrice (bid_at s (msg_sender env)));;
  s ← get;
  FHE_allow (encryptedPrice (bid_at s (msg_sender env))) (organizer s);;
  modify (set_lowestBidCalculated false);;
  emit (BidSubmitted (msg_sender env) (block_timestamp env)).

(** [getBid(address bidder)] *)
Definition getBid (a : address) (s : Storage) : euint32 * address * uint256 * bool :=
  let bid := bid_at s a in
  (encryptedPrice bid, bidder bid, timestamp bid, exists_ bid).

(** The [for (uint256 i = 1; i < _bidders.length; i++)] loop of
    [findLowestBid], from index [i].  [gas] is the measure of the
    recursion, one unit per iteration; the cost the coprocessor puts
    on the operations is the service's own ([FHE_lt] and [FHE_select]
    being [None]). *)
Fixpoint findLowestBid_loop (gas : nat) (i : nat) : Exec unit :=
  s ← get;
  if (i <? length (_bidders s))%nat then
    match gas with
    | O => revert OutOfGas
    | S gas' =>
        bidder_ ← bidders_at i;
        s ← get;
        let currentBid := encryptedPrice (bid_at s bidder_) in
        isLess ← liftFHE (FHE_lt currentBid (_lowestBid s));
        s ← get;
        selected ← liftFHE (FHE_select isLess currentBid (_lowestBid s));
        modify (set_lowestBid selected);;
        findLowestBid_loop gas' (S i)
    end
  else mret tt.

(** [findLowestBid()] *)
Definition findLowestBid (env : Env) : Exec unit :=
  s ← get;
  require (0 <? length (_bidders s))%nat EmptyLedger;;
  first ← bidders_at 0;
  s ← get;
  modify (set_lowestBid (encryptedPrice (bid_at s first)));;
  first ← bidders_at 0;
  modify (set_lowestBidder first);;
  s ← get;
  findLowestBid_loop (length (_bidders s)) 1;;
  s ← get;
  FHE_allowThis env (_lowestBid s);;
  s ← get;
  FHE_allow (_lowestBid s) (organizer s);;
  modify (set_lowestBidCalculated true);;
  s ← get;
  emit (LowestBidCalculated (_lowestBidder s) (block_timestamp env)).

(** [getLowestBid()] *)
Definition getLowestBid (s : Storage) : euint32 * bool :=
  if negb (_lowestBidCalculated s) then (_zeroEuint32 s, false)
  else (_lowestBid s, true).

(** [getAllBidders()] *)
Definition getAllBidders (s : Storage) : list address := _bidders s.

(** [hasBid(address bidder)] *)
Definition hasBid (a : address) (s : Storage) : bool := exists_ (bid_at s a).

End Contract.

(** ** Transactions against a deployed contract *)

Section Host.
Context {F : FHEService}.

(** The externally callable functions. *)
Inductive Call : Type :=
| CallSubmitBid (encryptedPrice_ : externalEuint32) (inputProof : bytes)
| CallFindLowestBid
| CallGetBid (a : address)
| CallGetLowestBid
| CallGetAllBidders
| CallHasBid (a : address)
| CallOrganizer.

Inductive Value : Type :=
| VUnit
| VBid (r : euint32 * address * uint256 * bool)
| VLowestBid (r : euint32 * bool)
| VBidders (r : list address)
| VBool (r : bool)
| VAddress (r : address).

Definition view {A} (f : Storage → A) : Exec A := λ s, Done (f s) s [].

Definition dispatch (env : Env) (c : Call) : Exec Value :=
  match c with
  | CallSubmitBid h proof => submitBid env h proof;; mret VUnit
  | CallFindLowestBid => findLowestBid env;; mret VUnit
  | CallGetBid a => r ← view (getBid a); mret (VBid r)
  | CallGetLowestBid => r ← view getLowestBid; mret (VLowestBid r)
  | CallGetAllBidders => r ← view getAllBidders; mret (VBidders r)
  | CallHasBid a => r ← view (hasBid a); mret (VBool r)
  | CallOrganizer => r ← view organizer; mret (VAddress r)
  end.

(** What an observer of the chain sees: the contract storage and the
    grants and logs of all committed transactions, oldest first. *)
Record World : Type := { storage : Storage; trace : list Effect }.

Record Tx : Type := { tx_sender : address; tx_time : uint256; tx_call : Call }.

Definition tx_env (self : address) (tx : Tx) : Env :=
  {| this := self; msg_sender := tx_sender tx; block_timestamp := tx_time tx |}.

(** One transaction: a reverted call is rolled back by the host. *)
Definition transact (self : address) (tx : Tx) (w : World) : World * option Value :=
  match dispatch (tx_env self tx) (tx_call tx) (storage w) with
  | Done v s out => ({| storage := s; trace := trace w ++ out |}, Some v)
  | Reverted _ _ _ => (w, None)
  end.

Definition succeeds (self : address) (tx : Tx) (w : World) : bool :=
  match (transact self tx w).2 with Some _ => true | None => false end.

Definition run (self : address) (txs : list Tx) (w : World) : World :=
  fold_left (λ w tx, (transact self tx w).1) txs w.

(** The calls of a history that committed, in order. *)
Fixpoint committed (self : address) (txs : list Tx) (w : World) : list Tx :=
  match txs with
  | [] => []
  | tx :: txs' =>
      (if succeeds self tx w then [tx] else [])
        ++ committed self txs' (transact self tx w).1
  end.

Definition deploy (_organizer : address) : option World :=
  s ← constructor _organizer; Some {| storage := s; trace := [] |}.

End Host.

(** ** A plaintext-simulating service *)

Module Stub.

(** Handles are the plaintexts themselves; a proof is accepted when it
    is non-empty; no comparison or selection is ever refused. *)
Definition fromExternal (self sender : address) (h : N) (proof : bytes) : option N :=
  match proof with
  | [] => None
  | _ :: _ => Some (h mod 2 ^ 32)
  end.

Definition service : FHEService :=
  {| euint32 := N; ebool := bool; externalEuint32 := N;
     euint32_zero := 0;
     FHE_asEuint32 := λ n, n mod 2 ^ 32;
     FHE_fromExternal := fromExternal;
     FHE_lt := λ a b, Some (a <? b);
     FHE_select := λ (c : bool) a b, Some (if c then a else b);
     decrypt32 := λ n, n;
     decryptBool := λ b, b |}.

End Stub.

(** ** A service with a cap on chained operations *)

Module Capped.

(** A handle is a plaintext with the depth of the chain of operations
    that produced it in the transaction; imported inputs have depth
    zero.  A comparison or selection is one deeper than its deepest
    operand, and the coprocessor refuses it beyond [cap].  With this
    cap twenty-nine iterations of the loop of [findLowestBid] are
    accepted and the comparison of the thirtieth is refused. *)
Definition cap : nat := 58.

Definition fromExternal (self sender : address) (h : N) (proof : bytes)
    : option (N * nat) :=
  match proof with
  | [] => None
  | _ :: _ => Some (h mod 2 ^ 32, O)
  end.

Definition lt (a b : N * nat) : option (bool * nat) :=
  let depth := S (a.2 `max` b.2) in
  if (depth <=? cap)%nat then Some (a.1 <? b.1, depth) else None.

Definition select (c : bool * nat) (a b : N * nat) : option (N * nat) :=
  let depth := S (c.2 `max` (a.2 `max` b.2)) in
  if (depth <=? cap)%nat then Some (if c.1 then a.1 else b.1, depth) else None.

Definition service : FHEService :=
  {| euint32 := N * nat; ebool := bool * nat; externalEuint32 := N;
     euint32_zero := (0, O);
     FHE_asEuint32 := λ n, (n mod 2 ^ 32, O);
     FHE_fromExternal := fromExternal;
     FHE_lt := lt;
     FHE_select := select;
     decrypt32 := fst;
     decryptBool := fst |}.

End Capped.

(** ** Vocabulary of the statements *)

Section Vocabulary.
Context {F : FHEService}.

(** The ciphertext handle stored for a participant. *)
Definition price (s : Storage) (a : address) : euint32 :=
  encryptedPrice (bid_at s a).

(** One step of the fold: [select(lt(current, runningMin), current, runningMin)],
    when the service accepts both calls. *)
Definition min_step (s : Storage) (runningMin : euint32) (a : address)
    : option euint32 :=
  isLess ← FHE_lt (price s a) runningMin;
  FHE_select isLess (price s a) runningMin.

(** The steps of the fold over a list of entries, in order. *)
Fixpoint fold_min (s : Storage) (runningMin : euint32) (l : list address)
    : option euint32 :=
  match l with
  | [] => Some runningMin
  | a :: l' => m ← min_step s runningMin a; fold_min s m l'
  end.

(** The fold as the specification words it: seeded with the first
    entry, then one step per later entry, in roster order.  It is
    [None] when the service refuses one of the calls. *)
Definition running_min (s : Storage) (first : address) (rest : list address)
    : option euint32 :=
  fold_min s (price s first) rest.

(** Storage after a completed minimum-finding pass. *)
Definition after_find (s : Storage) (first : address) (m : euint32) : Storage :=
  {| organizer := organizer s; _bids := _bids s; _bidders := _bidders s;
     _lowestBid := m; _lowestBidder := first;
     _lowestBidCalculated := true; _zeroEuint32 := _zeroEuint32 s |}.

(** Storage after an accepted submission of [p] by [a] at time [t]. *)
Definition after_submit (s : Storage) (a : address) (p : euint32) (t : uint256) : Storage :=
  {| organizer := organizer s;
     _bids := <[a := {| encryptedPrice := p;
                        bidder := if exists_ (bid_at s a) then bidder (bid_at s a) else a;
                        timestamp := t; exists_ := true |}]> (_bids s);
     _bidders := if exists_ (bid_at s a) then _bidders s else _bidders s ++ [a];
     _lowestBid := _lowestBid s; _lowestBidder := _lowestBidder s;
     _lowestBidCalculated := false; _zeroEuint32 := _zeroEuint32 s |}.

Definition is_submit (c : Call) : bool :=
  match c with CallSubmitBid _ _ => true | _ => false end.

Definition is_find (c : Call) : bool :=
  match c with CallFindLowestBid => true | _ => false end.

(** The world a committed [submitBid] leaves behind. *)
Definition world_after_submit (self : address) (tx : Tx) (p : euint32) (w : World) : World :=
  {| storage := after_submit (storage w) (tx_sender tx) p (tx_time tx);
     trace := trace w ++
       [Allow p self; Allow p (organizer (storage w));
        Emit (BidSubmitted (tx_sender tx) (tx_time tx))] |}.

(** The world a committed [findLowestBid] that computed [m] leaves behind. *)
Definition world_after_find (self : address) (tx : Tx) (first : address)
    (m : euint32) (w : World) : World :=
  {| storage := after_find (storage w) first m;
     trace := trace w ++
       [Allow m self; Allow m (organizer (storage w));
        Emit (LowestBidCalculated first (tx_time tx))] |}.

(** Every transaction is one of: rolled back or read-only (the world is
    unchanged), a committed submission, or a committed evaluation. *)
Inductive Step (self : address) (tx : Tx) (w : World) : World → bool → Prop :=
| step_submit h proof p :
    tx_call tx = CallSubmitBid h proof →
    FHE_fromExternal self (tx_sender tx) h proof = Some p →
    Step self tx w (world_after_submit self tx p w) true
| step_find first rest m :
    tx_call tx = CallFindLowestBid →
    _bidders (storage w) = first :: rest →
    running_min (storage w) first rest = Some m →
    Step self tx w (world_after_find self tx first m w) true
| step_view :
    is_submit (tx_call tx) = false → is_find (tx_call tx) = false →
    Step self tx w w true
| step_rollback :
    is_submit (tx_call tx) || is_find (tx_call tx) = true →
    Step self tx w w false.

(** The ledger and the roster agree: the roster has no repetition, and
    an identity has a ledger entry exactly when it is on the roster, in
    which case the entry is live and carries that identity. *)
Definition ledger_inv (s : Storage) : Prop :=
  NoDup (_bidders s) ∧
  ∀ a, match _bids s !! a with
       | Some b => a ∈ _bidders s ∧ exists_ b = true ∧ bidder b = a
       | None => a ∉ _bidders s
       end.

(** What holds of a world reached from a contract deployed with
    organizer [o] at address [self]. *)
Definition world_inv (self o : address) (w : World) : Prop :=
  organizer (storage w) = o
  ∧ _zeroEuint32 (storage w) = FHE_asEuint32 0
  ∧ ledger_inv (storage w)
  ∧ ∀ ct a, Allow ct a ∈ trace w → a = self ∨ a = o.

(** Storage carried by an outcome, committed or not. *)
Definition outcome_storage {A} (r : Outcome A) : Storage :=
  match r with Done _ s _ => s | Reverted _ s _ => s end.

(** The error of an outcome, if it is a failure. *)
Definition outcome_error {A} (r : Outcome A) : option Error :=
  match r with Done _ _ _ => None | Reverted e _ _ => Some e end.

(** C1 as the specification words it: on every non-empty roster
    [findLowestBid] completes and stores the fold, whose plaintext is
    the least bid. *)
Definition minimum_on_every_roster : Prop :=
  ∀ env s first rest,
    _bidders s = first :: rest →
    ∃ s' out,
      findLowestBid env s = Done tt s' out
      ∧ running_min s first rest = Some (_lowestBid s')
      ∧ (∃ a, a ∈ _bidders s ∧ decrypt32 (_lowestBid s') = decrypt32 (price s a))
      ∧ (∀ a, a ∈ _bidders s → decrypt32 (_lowestBid s') ≤ decrypt32 (price s a)).

(** C8 as the specification words it: on every non-empty ledger two
    consecutive calls both complete, with the same minimum. *)
Definition evaluation_twice_succeeds : Prop :=
  ∀ env1 env2 s,
    _bidders s ≠ [] →
    ∃ s1 out1 s2 out2,
      findLowestBid env1 s = Done tt s1 out1
      ∧ findLowestBid env2 s1 = Done tt s2 out2
      ∧ decrypt32 (_lowestBid s2) = decrypt32 (_lowestBid s1).

(** The logs among a list of effects. *)
Definition events (out : list Effect) : list Event :=
  omap (λ x, match x with Emit e => Some e | Allow _ _ => None end) out.

(** The grants among a list of effects. *)
Definition grants (out : list Effect) : list (euint32 * address) :=
  omap (λ x, match x with Allow ct a => Some (ct, a) | Emit _ => None end) out.

(** The account-typed fields of a log. *)
Definition event_addresses (e : Event) : list address :=
  match e with
  | BidSubmitted a _ => [a]
  | LowestBidCalculated a _ => [a]
  end.

(** C6 as the specification words it: no log of a completed
    [findLowestBid] carries a roster identity. *)
Definition notification_carries_no_identity : Prop :=
  ∀ env s s' out,
    findLowestBid env s = Done tt s' out →
    ∀ e a, e ∈ events out → a ∈ event_addresses e → a ∉ _bidders s.

(** "A minimum-finding pass has completed since the last ledger
    mutation": among the committed calls there is a [findLowestBid]
    with no [submitBid] after it. *)
Definition pass_since_last_mutation (calls : list Call) : Prop :=
  ∃ before after,
    calls = before ++ CallFindLowestBid :: after
    ∧ Forall (λ c, is_submit c = false) after.

(** Each identity of a list once, at the place of its first occurrence. *)
Fixpoint first_seen (l : list address) : list address :=
  match l with
  | [] => []
  | a :: l' => a :: filter (λ b, b ≠ a) (first_seen l')
  end.

(** Senders of the committed [submitBid] calls of a history, in order. *)
Definition submitters (self : address) (txs : list Tx) (w0 : World) : list address :=
  tx_sender <$> filter (λ t, is_submit (tx_call t) = true) (committed self txs w0).

(** C5 as the specification words it: only [submitBid] writes the bid
    ledger, and only [findLowestBid] writes the running-minimum state,
    the computed flag included. *)
Definition writers_as_specified : Prop :=
  ∀ self tx w,
    (is_submit (tx_call tx) = false →
       _bids (storage (transact self tx w).1) = _bids (storage w)
       ∧ _bidders (storage (transact self tx w).1) = _bidders (storage w))
    ∧ (is_find (tx_call tx) = false →
       _lowestBid (storage (transact self tx w).1) = _lowestBid (storage w)
       ∧ _lowestBidCalculated (storage (transact self tx w).1)
           = _lowestBidCalculated (storage w)).

End Vocabulary.

(** ** The test ledger: Alice 1000, Bob 800, Charlie 1200 *)

Module Scenario.

Local Existing Instance Stub.service.

Definition self : address := 500.
Definition organizer_ : address := 99.
Definition alice : address := 1.
Definition bob : address := 2.
Definition charlie : address := 3.
Definition proof : list Byte.byte := [Byte.x01].

Definition world0 : World :=
  {| storage := initial_storage organizer_; trace := [] |}.

Definition submit (who : address) (t : N) (clear : N) : Tx :=
  {| tx_sender := who; tx_time := t; tx_call := CallSubmitBid clear proof |}.

Definition find (who : address) (t : N) : Tx :=
  {| tx_sender := who; tx_time := t; tx_call := CallFindLowestBid |}.

Definition three_bids : list Tx :=
  [submit alice 10 1000; submit bob 11 800; submit charlie 12 1200].

Definition ledger3 : Storage := storage (run self three_bids world0).

(** Same roster, other bids. *)
Definition ledger3' : Storage :=
  storage (run self [submit alice 10 700; submit bob 11 900; submit charlie 12 1200] world0).

Definition env_find : Env :=
  {| this := self; msg_sender := organizer_; block_timestamp := 13 |}.

(** Three bids, an evaluation, then Alice bids again. *)
Definition evaluated : list Tx := three_bids ++ [find organizer_ 13].
Definition resubmitted : list Tx := evaluated ++ [submit alice 14 900].

(** A submission with an empty proof. *)
Definition unproved : Tx :=
  {| tx_sender := alice; tx_time := 10; tx_call := CallSubmitBid 1000 [] |}.

End Scenario.

(** ** Many bidders on the capped service *)

Module Crowd.

Local Existing Instance Capped.service.

Definition self : address := 500.
Definition organizer_ : address := 99.

Definition world0 : World :=
  {| storage := initial_storage organizer_; trace := [] |}.

(** Bidders 1 to [n]; bidder [i] bids [1000 + i] at time [i]. *)
Definition bids (n : nat) : list Tx :=
  (λ i, {| tx_sender := N.of_nat i; tx_time := N.of_nat i;
           tx_call := CallSubmitBid (1000 + N.of_nat i) [Byte.x01] |})
    <$> seq 1 n.

Definition ledger (n : nat) : Storage := storage (run self (bids n) world0).

Definition env_find : Env :=
  {| this := self; msg_sender := organizer_; block_timestamp := 100 |}.

Definition find : Tx :=
  {| tx_sender := organizer_; tx_time := 100; tx_call := CallFindLowestBid |}.

End Crowd.

(** ** Vocabulary of the history-level statements *)

Section Histories.
Context {F : FHEService}.

(** What a transaction submits when the service accepts its input:
    the sender, the imported ciphertext and the block time. *)
Definition submission_of (self : address) (tx : Tx)
    : option (address * euint32 * uint256) :=
  match tx_call tx with
  | CallSubmitBid h proof =>
      p ← FHE_fromExternal self (tx_sender tx) h proof;
      Some (tx_sender tx, p, tx_time tx)
  | _ => None
  end.

Definition submission_by (self a : address) (tx : Tx) : option (euint32 * uint256) :=
  match submission_of self tx with
  | Some (b, p, t) => if decide (b = a) then Some (p, t) else None
  | None => None
  end.

(** The most recent accepted submission of [a] in a history. *)
Definition latest_submission (self : address) (txs : list Tx) (a : address)
    : option (euint32 * uint256) :=
  last (omap (submission_by self a) txs).

(** The calls that write storage. *)
Definition is_mutation (c : Call) : bool := is_submit c || is_find c.

(** When a call goes through. *)
Definition accepted (self : address) (tx : Tx) (w : World) : Prop :=
  match tx_call tx with
  | CallSubmitBid h proof => is_Some (FHE_fromExternal self (tx_sender tx) h proof)
  | CallFindLowestBid =>
      match _bidders (storage w) with
      | [] => False
      | first :: rest => is_Some (running_min (storage w) first rest)
      end
  | _ => True
  end.

(** A log entry that records a transaction: the right event for the
    call, with the transaction's time, and its sender for a submission. *)
Definition logs_tx (tx : Tx) (e : Event) : Prop :=
  match tx_call tx, e with
  | CallSubmitBid _ _, BidSubmitted b t => b = tx_sender tx ∧ t = tx_time tx
  | CallFindLowestBid, LowestBidCalculated _ t => t = tx_time tx
  | _, _ => False
  end.

(** The stored minimum is that of the ledger as it stands. *)
Definition minimum_fresh (s : Storage) : Prop :=
  _lowestBidCalculated s = true →
  ∃ first rest,
    _bidders s = first :: rest
    ∧ running_min s first rest = Some (_lowestBid s)
    ∧ _lowestBidder s = first.

(** Every ciphertext the contract hands out as present has been
    granted to the contract and to the organizer. *)
Definition grants_cover (self o : address) (w : World) : Prop :=
  (∀ a, a ∈ _bidders (storage w) →
        Allow (price (storage w) a) self ∈ trace w
        ∧ Allow (price (storage w) a) o ∈ trace w)
  ∧ (_lowestBidCalculated (storage w) = true →
        Allow (_lowestBid (storage w)) self ∈ trace w
        ∧ Allow (_lowestBid (storage w)) o ∈ trace w).

End Histories.

(** ** The page and its hook (src/ui/src/pages/Index.tsx) *)

Module UI.

(** [gasEstimate * BigInt(120) / BigInt(100)], where [gasEstimate] is
    the node's estimate, or [fallback] when [estimateGas] throws.
    BigInt division truncates toward zero. *)
Definition gasLimit (fallback : Z) (estimate : option Z) : Z :=
  let gasEstimate := match estimate with Some g => g | None => fallback end in
  ((gasEstimate * 120) ÷ 100)%Z.

(** The limits of the hook's [submitBid] and [findLowestBid]. *)
Definition submitBid_gasLimit : option Z → Z := gasLimit 5000000.
Definition findLowestBid_gasLimit : option Z → Z := gasLimit 10000000.

Section Page.
(** A JavaScript [number]; the page stores it and never computes with it. *)
Context {number : Type}.

Record BidInfo : Type := {
  bidder : string;
  encryptedPrice : string;
  timestamp : Z;
  decryptedPrice : option number;
}.

(** The state update of [handleDecryptBid]:
    [prev.map((bid) => (bid.bidder === bidder ? { ...bid, decryptedPrice: decrypted } : bid))]. *)
Definition handleDecryptBid_update (bidder_ : string) (decrypted : number)
    (prev : list BidInfo) : list BidInfo :=
  map (λ bid,
         if String.eqb (bidder bid) bidder_
         then {| bidder := bidder bid; encryptedPrice := encryptedPrice bid;
                 timestamp := timestamp bid; decryptedPrice := Some decrypted |}
         else bid)
      prev.

End Page.

End UI.

(** * Proofs *)

Ltac exec_unfold :=
  unfold submitBid, findLowestBid, fromExternal, FHE_allowThis, FHE_allow,
    emit, effect, require, bidders_at, get, modify, revert, view,
    mbind, mret, Exec_bind, Exec_ret, exec_bind, exec_ret in *.

Ltac host_unfold :=
  unfold transact, dispatch, view, mbind, mret, Exec_bind, Exec_ret,
    exec_bind, exec_ret, tx_env in *.

Lemma Stub_laws : FHELaws Stub.service.
Proof. split; cbn; by intros; simplify_eq. Qed.

Lemma Capped_laws : FHELaws Capped.service.
Proof.
  split; cbn; unfold Capped.lt, Capped.select; intros;
    case_match; by simplify_eq.
Qed.

(** ** Outcomes of the two state-changing functions *)

Section Outcomes.
Context {F : FHEService}.

Lemma set_lowestBid_same s : set_lowestBid (_lowestBid s) s = s.
Proof. by destruct s. Qed.

Lemma set_lowestBid_twice p q s :
  set_lowestBid p (set_lowestBid q s) = set_lowestBid p s.
Proof. done. Qed.

Lemma min_step_set_lowestBid p s : min_step (set_lowestBid p s) = min_step s.
Proof. done. Qed.

(** The fold reads the ledger only. *)
Lemma fold_min_same_bids s1 s2 l :
  _bids s1 = _bids s2 → ∀ m, fold_min s1 m l = fold_min s2 m l.
Proof.
  intros Hbids. induction l as [|a l IH]; intros m; cbn [fold_min]; [done|].
  unfold min_step, price, bid_at. rewrite Hbids.
  destruct (FHE_lt _ m) as [c|]; cbn; [|done].
  destruct (FHE_select c _ m) as [m'|]; cbn; [apply IH|done].
Qed.

Lemma fold_min_set_lowestBid p s l m :
  fold_min (set_lowestBid p s) m l = fold_min s m l.
Proof. by apply fold_min_same_bids. Qed.

(** One unfolding of the loop: the guard, then the body. *)
Lemma findLowestBid_loop_unfold gas i s :
  findLowestBid_loop gas i s =
    if (i <? length (_bidders s))%nat then
      match gas with
      | O => Reverted OutOfGas s []
      | S gas' =>
          match _bidders s !! i with
          | Some a =>
              match min_step s (_lowestBid s) a with
              | Some m => findLowestBid_loop gas' (S i) (set_lowestBid m s)
              | None => Reverted FHEOperationReverted s []
              end
          | None => Reverted ArrayOutOfBounds s []
          end
      end
    else Done tt s [].
Proof.
  destruct gas as [|gas']; cbn [findLowestBid_loop]; exec_unfold;
    cbv beta iota; destruct (i <? length (_bidders s))%nat; try done.
  destruct (_bidders s !! i) as [a|]; [|done].
  unfold min_step, price, liftFHE. exec_unfold. cbn.
  destruct (FHE_lt _ _) as [c|]; cbn; [|done].
  destruct (FHE_select _ _ _) as [m|]; cbn; [|done].
  by destruct (findLowestBid_loop gas' (S i) _).
Qed.

(** Within its budget the loop completes exactly when the service
    accepts the fold of the remaining roster entries onto the current
    running minimum, and then stores its result. *)
Lemma findLowestBid_loop_fold gas : ∀ i s m,
  (length (_bidders s) - i ≤ gas)%nat →
  fold_min s (_lowestBid s) (drop i (_bidders s)) = Some m →
  findLowestBid_loop gas i s = Done tt (set_lowestBid m s) [].
Proof.
  induction gas as [|gas IH]; intros i s m Hgas;
    rewrite findLowestBid_loop_unfold;
    destruct (i <? length (_bidders s))%nat eqn:Hi;
    try (apply Nat.ltb_ge in Hi; rewrite drop_ge by done; cbn;
         intros [= <-]; by rewrite set_lowestBid_same).
  - apply Nat.ltb_lt in Hi. lia.
  - apply Nat.ltb_lt in Hi.
    destruct (lookup_lt_is_Some_2 (_bidders s) i Hi) as [b Hb].
    rewrite Hb, (drop_S _ _ _ Hb). cbn [fold_min].
    destruct (min_step s (_lowestBid s) b) as [m'|]; cbn; [|done].
    intros Hfold. rewrite (IH (S i) _ m); [done|cbn; lia|].
    cbn [_bidders set_lowestBid _lowestBid]. by rewrite fold_min_set_lowestBid.
Qed.

(** When the service refuses a step of the fold, the loop fails with
    that refusal; only [_lowestBid] has been written by then. *)
Lemma findLowestBid_loop_refused gas : ∀ i s,
  (length (_bidders s) - i ≤ gas)%nat →
  fold_min s (_lowestBid s) (drop i (_bidders s)) = None →
  ∃ m, findLowestBid_loop gas i s
       = Reverted FHEOperationReverted (set_lowestBid m s) [].
Proof.
  induction gas as [|gas IH]; intros i s Hgas;
    rewrite findLowestBid_loop_unfold;
    destruct (i <? length (_bidders s))%nat eqn:Hi;
    try (apply Nat.ltb_ge in Hi; rewrite drop_ge by done; by cbn).
  - apply Nat.ltb_lt in Hi. lia.
  - apply Nat.ltb_lt in Hi.
    destruct (lookup_lt_is_Some_2 (_bidders s) i Hi) as [b Hb].
    rewrite Hb, (drop_S _ _ _ Hb). cbn [fold_min].
    destruct (min_step s (_lowestBid s) b) as [m'|]; cbn.
    + intros Hfold.
      destruct (IH (S i) (set_lowestBid m' s)) as [m Hm]; [cbn; lia| |].
      * cbn [_bidders set_lowestBid _lowestBid]. by rewrite fold_min_set_lowestBid.
      * exists m. by rewrite Hm.
    + intros _. exists (_lowestBid s). by rewrite set_lowestBid_same.
Qed.

Lemma findLowestBid_done env s first rest m :
  _bidders s = first :: rest →
  running_min s first rest = Some m →
  findLowestBid env s =
    Done tt (after_find s first m)
      [Allow m (this env); Allow m (organizer s);
       Emit (LowestBidCalculated first (block_timestamp env))].
Proof.
  intros Hr Hm. unfold findLowestBid. exec_unfold.
  repeat (rewrite Hr; cbn -[findLowestBid_loop]).
  rewrite (findLowestBid_loop_fold _ _ _ m); [|cbn; rewrite Hr; cbn; lia|].
  - cbn. rewrite ?Hr. cbn. done.
  - cbn [_bidders set_lowestBid set_lowestBidder _lowestBid]. rewrite Hr. cbn [drop].
    by rewrite (fold_min_same_bids _ s).
Qed.

Lemma findLowestBid_refused env s first rest :
  _bidders s = first :: rest →
  running_min s first rest = None →
  ∃ s', findLowestBid env s = Reverted FHEOperationReverted s' [].
Proof.
  intros Hr Hm. unfold findLowestBid. exec_unfold.
  repeat (rewrite Hr; cbn -[findLowestBid_loop]).
  edestruct (findLowestBid_loop_refused (length (first :: rest)) 1) as [m ->];
    [| |by eexists].
  - cbn. rewrite Hr. cbn. lia.
  - cbn [_bidders set_lowestBid set_lowestBidder _lowestBid]. rewrite Hr. cbn [drop].
    by rewrite (fold_min_same_bids _ s).
Qed.

(** A completed call is one whose fold the service accepted. *)
Lemma findLowestBid_Done_inv env s s' out :
  findLowestBid env s = Done tt s' out →
  ∃ first rest m,
    _bidders s = first :: rest
    ∧ running_min s first rest = Some m
    ∧ s' = after_find s first m
    ∧ out = [Allow m (this env); Allow m (organizer s);
             Emit (LowestBidCalculated first (block_timestamp env))].
Proof.
  intros Hrun. destruct (_bidders s) as [|first rest] eqn:Hr.
  - unfold findLowestBid in Hrun. exec_unfold. by rewrite Hr in Hrun.
  - destruct (running_min s first rest) as [m|] eqn:Hm.
    + rewrite (findLowestBid_done env s first rest m Hr Hm) in Hrun.
      injection Hrun as <- <-. by exists first, rest, m.
    + destruct (findLowestBid_refused env s first rest Hr Hm) as [s'' Hs''].
      congruence.
Qed.

Lemma findLowestBid_empty env s :
  _bidders s = [] → findLowestBid env s = Reverted EmptyLedger s [].
Proof. intros Hr. unfold findLowestBid. exec_unfold. by rewrite Hr. Qed.

Lemma submitBid_done env h proof s p :
  FHE_fromExternal (this env) (msg_sender env) h proof = Some p →
  submitBid env h proof s =
    Done tt (after_submit s (msg_sender env) p (block_timestamp env))
      [Allow p (this env); Allow p (organizer s);
       Emit (BidSubmitted (msg_sender env) (block_timestamp env))].
Proof.
  intros Hp. unfold submitBid. exec_unfold. rewrite Hp.
  unfold after_submit.
  destruct (exists_ (bid_at s (msg_sender env))) eqn:Hex; cbn;
    unfold set_bid_timestamp, set_bid_encryptedPrice, push_bidder,
      set_lowestBidCalculated, set_bid, bid_at in *; cbn;
    rewrite ?lookup_insert_eq; cbn;
    rewrite ?lookup_insert_eq, ?insert_insert_eq; cbn;
    by rewrite ?Hex.
Qed.

Lemma submitBid_reverted env h proof s :
  FHE_fromExternal (this env) (msg_sender env) h proof = None →
  submitBid env h proof s = Reverted InvalidCiphertextProof s [].
Proof. intros Hp. unfold submitBid. exec_unfold. by rewrite Hp. Qed.

End Outcomes.

(** ** The running minimum is the minimum *)

Section Minimum.
Context {F : FHEService} (L : FHELaws F).

Lemma decrypt_min_step s m a r :
  min_step s m a = Some r →
  decrypt32 r = N.min (decrypt32 (price s a)) (decrypt32 m).
Proof.
  unfold min_step. destruct (FHE_lt (price s a) m) as [c|] eqn:Hc; cbn; [|done].
  intros Hr. rewrite (decrypt_select _ _ _ _ Hr), (decrypt_lt _ _ _ Hc).
  destruct (N.ltb_spec (decrypt32 (price s a)) (decrypt32 m)); lia.
Qed.

(** The fold never rises above its seed, stays below every entry it
    has visited, and always holds the seed's or a visited entry's value. *)
Lemma decrypt_fold_min_step s l : ∀ m r,
  fold_min s m l = Some r →
  decrypt32 r ≤ decrypt32 m
  ∧ (∀ a, a ∈ l → decrypt32 r ≤ decrypt32 (price s a))
  ∧ (decrypt32 r = decrypt32 m
     ∨ ∃ a, a ∈ l ∧ decrypt32 r = decrypt32 (price s a)).
Proof.
  induction l as [|b l IH]; intros m r; cbn [fold_min].
  - intros [= <-]. split; [lia|]. split; [|by left].
    intros a Ha. by apply elem_of_nil in Ha.
  - destruct (min_step s m b) as [m'|] eqn:Hstep; cbn; [|done].
    intros Hfold. destruct (IH m' r Hfold) as (Hle & Hall & Hmem).
    rewrite (decrypt_min_step _ _ _ _ Hstep) in Hle.
    split; [lia|]. split.
    + intros a [->|Ha]%elem_of_cons; [lia|by apply Hall].
    + destruct Hmem as [Heq|(a & Ha & Heq)].
      * rewrite (decrypt_min_step _ _ _ _ Hstep) in Heq.
        destruct (N.min_spec (decrypt32 (price s b)) (decrypt32 m)) as [[_ Hm]|[_ Hm]].
        -- right. exists b. split; [apply elem_of_cons; by left|lia].
        -- left. lia.
      * right. exists a. split; [apply elem_of_cons; by right|done].
Qed.

End Minimum.

(** ** Transactions, step by step *)

Section Steps.
Context {F : FHEService}.

Lemma transact_submit_ok self tx w h proof p :
  tx_call tx = CallSubmitBid h proof →
  FHE_fromExternal self (tx_sender tx) h proof = Some p →
  transact self tx w = (world_after_submit self tx p w, Some VUnit).
Proof.
  intros Hc Hp. unfold transact. rewrite Hc. cbn [dispatch].
  unfold mbind, Exec_bind, exec_bind.
  by rewrite (submitBid_done (tx_env self tx) h proof (storage w) p Hp).
Qed.

Lemma transact_submit_fail self tx w h proof :
  tx_call tx = CallSubmitBid h proof →
  FHE_fromExternal self (tx_sender tx) h proof = None →
  transact self tx w = (w, None).
Proof.
  intros Hc Hp. unfold transact. rewrite Hc. cbn [dispatch].
  unfold mbind, Exec_bind, exec_bind.
  by rewrite (submitBid_reverted (tx_env self tx) h proof (storage w) Hp).
Qed.

Lemma transact_find_ok self tx w first rest m :
  tx_call tx = CallFindLowestBid →
  _bidders (storage w) = first :: rest →
  running_min (storage w) first rest = Some m →
  transact self tx w = (world_after_find self tx first m w, Some VUnit).
Proof.
  intros Hc Hr Hm. unfold transact. rewrite Hc. cbn [dispatch].
  unfold mbind, Exec_bind, exec_bind.
  by rewrite (findLowestBid_done (tx_env self tx) (storage w) first rest m Hr Hm).
Qed.

Lemma transact_find_refused self tx w first rest :
  tx_call tx = CallFindLowestBid →
  _bidders (storage w) = first :: rest →
  running_min (storage w) first rest = None →
  transact self tx w = (w, None).
Proof.
  intros Hc Hr Hm. unfold transact. rewrite Hc. cbn [dispatch].
  unfold mbind, Exec_bind, exec_bind.
  destruct (findLowestBid_refused (tx_env self tx) (storage w) first rest Hr Hm)
    as [s' ->]. done.
Qed.

Lemma transact_find_fail self tx w :
  tx_call tx = CallFindLowestBid →
  _bidders (storage w) = [] →
  transact self tx w = (w, None).
Proof.
  intros Hc Hr. unfold transact. rewrite Hc. cbn [dispatch].
  unfold mbind, Exec_bind, exec_bind.
  by rewrite (findLowestBid_empty (tx_env self tx) (storage w) Hr).
Qed.

Lemma transact_view self tx w :
  is_submit (tx_call tx) = false → is_find (tx_call tx) = false →
  ∃ v, transact self tx w = (w, Some v).
Proof.
  intros Hs Hf. destruct w as [s tr]. host_unfold.
  destruct (tx_call tx); try discriminate; cbn; rewrite app_nil_r; eauto.
Qed.

Lemma transact_Step self tx w :
  Step self tx w (transact self tx w).1 (succeeds self tx w).
Proof.
  unfold succeeds.
  destruct (tx_call tx) as [h proof| | | | | |] eqn:Hc.
  - destruct (FHE_fromExternal self (tx_sender tx) h proof) as [p|] eqn:Hp.
    + rewrite (transact_submit_ok _ _ _ _ _ _ Hc Hp). cbn. by eapply step_submit.
    + rewrite (transact_submit_fail _ _ _ _ _ Hc Hp). cbn.
      apply step_rollback. by rewrite Hc.
  - destruct (_bidders (storage w)) as [|first rest] eqn:Hr.
    + rewrite (transact_find_fail _ _ _ Hc Hr). cbn.
      apply step_rollback. by rewrite Hc.
    + destruct (running_min (storage w) first rest) as [m|] eqn:Hm.
      * rewrite (transact_find_ok _ _ _ _ _ _ Hc Hr Hm). cbn. by eapply step_find.
      * rewrite (transact_find_refused _ _ _ _ _ Hc Hr Hm). cbn.
        apply step_rollback. by rewrite Hc.
  - destruct (transact_view self tx w) as [v ->]; try (by rewrite Hc).
    cbn. apply step_view; by rewrite Hc.
  - destruct (transact_view self tx w) as [v ->]; try (by rewrite Hc).
    cbn. apply step_view; by rewrite Hc.
  - destruct (transact_view self tx w) as [v ->]; try (by rewrite Hc).
    cbn. apply step_view; by rewrite Hc.
  - destruct (transact_view self tx w) as [v ->]; try (by rewrite Hc).
    cbn. apply step_view; by rewrite Hc.
  - destruct (transact_view self tx w) as [v ->]; try (by rewrite Hc).
    cbn. apply step_view; by rewrite Hc.
Qed.

Lemma run_snoc self txs tx w :
  run self (txs ++ [tx]) w = (transact self tx (run self txs w)).1.
Proof. unfold run. by rewrite fold_left_app. Qed.

Lemma committed_snoc self txs : ∀ tx w,
  committed self (txs ++ [tx]) w =
    committed self txs w ++
      (if succeeds self tx (run self txs w) then [tx] else []).
Proof.
  induction txs as [|t txs IH]; intros tx w; cbn.
  - by rewrite app_nil_r.
  - rewrite IH. by rewrite app_assoc.
Qed.

(** Induction over the states reachable from a world. *)
Lemma run_invariant (P : World → Prop) self w0 :
  P w0 →
  (∀ w tx, P w → P (transact self tx w).1) →
  ∀ txs, P (run self txs w0).
Proof.
  intros H0 Hstep txs. induction txs as [|tx txs IH] using rev_ind; [done|].
  rewrite run_snoc. by apply Hstep.
Qed.

End Steps.

(** ** Invariants of every reachable world *)

Section Reachable.
Context {F : FHEService}.

Lemma ledger_inv_exists s a :
  ledger_inv s → exists_ (bid_at s a) = true ↔ a ∈ _bidders s.
Proof.
  intros [_ Hinv]. specialize (Hinv a). unfold bid_at.
  destruct (_bids s !! a) as [b|]; cbn.
  - destruct Hinv as (? & ? & ?). done.
  - split; [done|]. intros Ha. by destruct Hinv.
Qed.

Lemma ledger_inv_bidder s a :
  ledger_inv s → a ∈ _bidders s → bidder (bid_at s a) = a.
Proof.
  intros [_ Hinv] Ha. specialize (Hinv a). unfold bid_at.
  destruct (_bids s !! a) as [b|]; cbn; [by destruct Hinv as (? & ? & ?)|done].
Qed.

Lemma ledger_inv_initial o : ledger_inv (initial_storage o).
Proof.
  split; cbn; [constructor|]. intros a. rewrite lookup_empty.
  apply not_elem_of_nil.
Qed.

Lemma ledger_inv_after_submit s a p t :
  ledger_inv s → ledger_inv (after_submit s a p t).
Proof.
  intros Hinv. pose proof (ledger_inv_exists s a Hinv) as Hex.
  pose proof (ledger_inv_bidder s a Hinv) as Hbid.
  destruct Hinv as [Hnd Hinv]. unfold after_submit.
  destruct (exists_ (bid_at s a)) eqn:Ha; split; cbn.
  - done.
  - intros a'. destruct (decide (a = a')) as [<-|Hne].
    + rewrite lookup_insert_eq. cbn. split; [by apply Hex|]. split; [done|].
      apply Hbid. by apply Hex.
    + rewrite lookup_insert_ne by done. apply Hinv.
  - apply NoDup_app. split; [done|]. split; [|apply NoDup_singleton].
    intros x Hx ->%list_elem_of_singleton.
    apply Hex in Hx. congruence.
  - intros a'. destruct (decide (a = a')) as [<-|Hne].
    + rewrite lookup_insert_eq. cbn. split; [|done].
      apply elem_of_app. right. by apply list_elem_of_singleton.
    + rewrite lookup_insert_ne by done. specialize (Hinv a').
      destruct (_bids s !! a') as [b|].
      * destruct Hinv as (? & ? & ?). split; [|done].
        apply elem_of_app. by left.
      * intros [?| ?%list_elem_of_singleton]%elem_of_app; [done|congruence].
Qed.

Lemma ledger_inv_after_find s first m :
  ledger_inv s → ledger_inv (after_find s first m).
Proof. done. Qed.

Lemma world_inv_initial self o :
  world_inv self o {| storage := initial_storage o; trace := [] |}.
Proof.
  split; [done|]. split; [done|]. split; [apply ledger_inv_initial|].
  cbn. intros ct a Hin. by apply elem_of_nil in Hin.
Qed.

Lemma Allow_in_outputs ct a c1 a1 c2 a2 e :
  Allow ct a ∈ [Allow c1 a1; Allow c2 a2; Emit e] → a = a1 ∨ a = a2.
Proof.
  rewrite !elem_of_cons, elem_of_nil.
  intros [H|[H|[H|[]]]]; [left|right|]; congruence.
Qed.

Lemma world_inv_step self o tx w :
  world_inv self o w → world_inv self o (transact self tx w).1.
Proof.
  intros (Horg & Hzero & Hled & Hacl).
  destruct (transact_Step self tx w)
    as [h proof p Hc Hp|first rest m Hc Hr Hm|Hs Hf|Hs].
  - split; [done|]. split; [done|].
    split; [by apply ledger_inv_after_submit|]. cbn.
    intros ct a [Hin|Hin]%elem_of_app; [by eapply Hacl|].
    rewrite Horg in Hin. by apply Allow_in_outputs in Hin.
  - split; [done|]. split; [done|].
    split; [by apply ledger_inv_after_find|]. cbn.
    intros ct a [Hin|Hin]%elem_of_app; [by eapply Hacl|].
    rewrite Horg in Hin. by apply Allow_in_outputs in Hin.
  - done.
  - done.
Qed.

Lemma world_inv_run self o txs :
  world_inv self o (run self txs {| storage := initial_storage o; trace := [] |}).
Proof.
  apply run_invariant; [apply world_inv_initial|].
  intros w tx. apply world_inv_step.
Qed.

End Reachable.

(** ** Properties of the minimum evaluator *)

Section Evaluator.
Context {F : FHEService}.

(** C1, amended.  On a non-empty roster whose fold the service
    accepts, [findLowestBid] completes and stores the result of the
    fold; and every completed call has stored the fold seeded with the
    first roster entry's ciphertext and stepped with
    [select(lt(entry, runningMin), entry, runningMin)] over the later
    entries in roster order, whose plaintext, the service honouring
    its comparison and selection contracts, is the least of the
    roster's bid values: it is the value of some roster entry and no
    roster entry has a smaller one. *)
Theorem findLowestBid_computes_minimum (L : FHELaws F) env s first rest :
  _bidders s = first :: rest →
  (∀ m, running_min s first rest = Some m →
        ∃ s' out, findLowestBid env s = Done tt s' out ∧ _lowestBid s' = m)
  ∧ (∀ s' out,
       findLowestBid env s = Done tt s' out →
       running_min s first rest = Some (_lowestBid s')
       ∧ getLowestBid s' = (_lowestBid s', true)
       ∧ (∃ a, a ∈ _bidders s ∧ decrypt32 (_lowestBid s') = decrypt32 (price s a))
       ∧ (∀ a, a ∈ _bidders s →
               decrypt32 (_lowestBid s') ≤ decrypt32 (price s a))).
Proof.
  intros Hr. split.
  - intros m Hm. eexists _, _.
    split; [by apply (findLowestBid_done env s first rest m)|done].
  - intros s' out (first' & rest' & m & Hr' & Hm & -> & _)%findLowestBid_Done_inv.
    rewrite Hr in Hr'. injection Hr' as <- <-.
    cbn [_lowestBid after_find]. split; [done|]. split; [done|].
    destruct (decrypt_fold_min_step L s rest (price s first) m Hm)
      as (Hle & Hall & Hmem).
    rewrite Hr. split.
    + destruct Hmem as [Heq|(a & Ha & Heq)].
      * exists first. split; [apply elem_of_cons; by left|done].
      * exists a. split; [apply elem_of_cons; by right|done].
    + intros a [->|Ha]%elem_of_cons; [done|by apply Hall].
Qed.

(** C4.  With an empty roster [findLowestBid] fails with [EmptyLedger]
    before writing anything: the storage at the point of failure is the
    prior storage, nothing was granted or logged, and the transaction
    leaves the world as it was. *)
Theorem findLowestBid_empty_ledger self tx w :
  tx_call tx = CallFindLowestBid →
  _bidders (storage w) = [] →
  findLowestBid (tx_env self tx) (storage w)
    = Reverted EmptyLedger (storage w) []
  ∧ transact self tx w = (w, None).
Proof.
  intros Hc Hr. split; [by apply findLowestBid_empty|by apply transact_find_fail].
Qed.

(** C7.  A submission whose ciphertext and proof the service rejects
    fails with [InvalidCiphertextProof] before writing anything: the
    storage at the point of failure is the prior storage, nothing was
    granted or logged, and the transaction leaves the world as it was. *)
Theorem submitBid_invalid_proof self tx w h proof :
  tx_call tx = CallSubmitBid h proof →
  FHE_fromExternal self (tx_sender tx) h proof = None →
  submitBid (tx_env self tx) h proof (storage w)
    = Reverted InvalidCiphertextProof (storage w) []
  ∧ transact self tx w = (w, None).
Proof.
  intros Hc Hp. split; [by apply submitBid_reverted|by eapply transact_submit_fail].
Qed.

Lemma running_min_after_find s f m first rest :
  running_min (after_find s f m) first rest = running_min s first rest.
Proof. unfold running_min. by apply fold_min_same_bids. Qed.

(** C8, amended.  When a [findLowestBid] call completes, a second
    call right after it, whoever makes it and whenever, completes too
    and leaves the storage of the first: the same minimum ciphertext,
    hence the same plaintext, and the same answer from [getLowestBid]. *)
Theorem findLowestBid_idempotent env1 env2 s s1 out1 :
  findLowestBid env1 s = Done tt s1 out1 →
  ∃ s2 out2,
    findLowestBid env2 s1 = Done tt s2 out2
    ∧ s2 = s1
    ∧ decrypt32 (_lowestBid s2) = decrypt32 (_lowestBid s1)
    ∧ getLowestBid s1 = (_lowestBid s1, true)
    ∧ getLowestBid s2 = getLowestBid s1.
Proof.
  intros (first & rest & m & Hr & Hm & -> & _)%findLowestBid_Done_inv.
  eexists _, _. split.
  - apply (findLowestBid_done env2 _ first rest m); [done|].
    by rewrite running_min_after_find.
  - done.
Qed.

Lemma findLowestBid_loop_lowestBidder gas : ∀ i s,
  _lowestBidder (outcome_storage (findLowestBid_loop gas i s)) = _lowestBidder s.
Proof.
  induction gas as [|gas IH]; intros i s; rewrite findLowestBid_loop_unfold;
    destruct (i <? length (_bidders s))%nat; try done.
  destruct (_bidders s !! i); [|done].
  destruct (min_step s (_lowestBid s) _); [|done]. by rewrite IH.
Qed.

(** C9.  After every completed [findLowestBid] the stored
    [_lowestBidder], and the identity carried by the one
    [LowestBidCalculated] log, is the first roster entry, whatever the
    bids are; the call completes whenever the service accepts the
    fold; and the loop leaves [_lowestBidder] as it found it, whether
    it completes or fails. *)
Theorem lowestBidder_is_first_roster_entry env s first rest :
  _bidders s = first :: rest →
  (∀ s' out,
     findLowestBid env s = Done tt s' out →
     _lowestBidder s' = first
     ∧ events out = [LowestBidCalculated first (block_timestamp env)])
  ∧ (∀ m, running_min s first rest = Some m →
          ∃ s' out, findLowestBid env s = Done tt s' out)
  ∧ (∀ gas i s0,
       _lowestBidder (outcome_storage (findLowestBid_loop gas i s0))
         = _lowestBidder s0).
Proof.
  intros Hr. split; [|split; [|intros; apply findLowestBid_loop_lowestBidder]].
  - intros s' out (first' & rest' & m & Hr' & _ & -> & ->)%findLowestBid_Done_inv.
    rewrite Hr in Hr'. by injection Hr' as <- <-.
  - intros m Hm. eexists _, _. by apply (findLowestBid_done env s first rest m).
Qed.

End Evaluator.

(** ** What the evaluator discloses *)

Section Disclosure.
Context {F : FHEService}.

Lemma deploy_Some o w0 :
  deploy o = Some w0 →
  o ≠ 0 ∧ w0 = {| storage := initial_storage o; trace := [] |}.
Proof.
  unfold deploy, constructor. destruct (N.eqb_spec o 0); cbn; [done|].
  intros [= <-]. done.
Qed.

(** C10.  In every world reached from a deployment, a committed
    [findLowestBid] issues exactly two grants, both on the new minimum
    ciphertext: one to the contract itself and one to the organizer;
    and over the whole history the principals holding a grant on that
    ciphertext are exactly these two, so a roster member holds one only
    if it is the organizer (or the contract). *)
Theorem minimum_granted_to_contract_and_organizer self o w0 txs tx :
  deploy o = Some w0 →
  tx_call tx = CallFindLowestBid →
  succeeds self tx (run self txs w0) = true →
  ∃ out,
    let w := run self txs w0 in
    let w' := (transact self tx w).1 in
    let m := _lowestBid (storage w') in
    trace w' = trace w ++ out
    ∧ organizer (storage w') = o
    ∧ grants out = [(m, self); (m, o)]
    ∧ (∀ a, Allow m a ∈ trace w' ↔ a = self ∨ a = o)
    ∧ (∀ p, p ∈ _bidders (storage w') → p ≠ self → p ≠ o → Allow m p ∉ trace w').
Proof.
  intros [_ ->]%deploy_Some Hc Hok.
  pose proof (world_inv_run self o txs) as Hinv.
  pose proof (world_inv_step self o tx _ Hinv) as Hinv'.
  set (w := run self txs _) in *.
  destruct (_bidders (storage w)) as [|first rest] eqn:Hr.
  { unfold succeeds in Hok. by rewrite (transact_find_fail _ _ _ Hc Hr) in Hok. }
  destruct (running_min (storage w) first rest) as [m|] eqn:Hm.
  2: { unfold succeeds in Hok.
       by rewrite (transact_find_refused _ _ _ _ _ Hc Hr Hm) in Hok. }
  destruct Hinv as (Horg & _). destruct Hinv' as (Horg' & _ & _ & Hacl').
  rewrite (transact_find_ok _ _ _ _ _ _ Hc Hr Hm) in *. cbn in *.
  eexists. cbn zeta. fold w. rewrite (transact_find_ok _ _ _ _ _ _ Hc Hr Hm). cbn.
  rewrite Horg in *.
  split; [done|]. split; [done|]. split; [done|]. split.
  - intros a. split; [apply Hacl'|].
    rewrite elem_of_app, !elem_of_cons. intros [->| ->]; right; auto.
  - intros p _ Hself Ho Hin. apply Hacl' in Hin. by destruct Hin.
Qed.

(** C6, amended.  The one log of a completed [findLowestBid] carries
    the block time and one identity, the first roster entry; that log
    and the stored [_lowestBidder] are the same for any two ledgers
    with the same roster on which the call completes, whatever their
    bids, so neither depends on which identity holds the minimum. *)
Theorem notification_independent_of_bids env s1 s2 first rest m1 m2 :
  _bidders s1 = first :: rest →
  _bidders s2 = _bidders s1 →
  running_min s1 first rest = Some m1 →
  running_min s2 first rest = Some m2 →
  ∃ s1' out1 s2' out2,
    findLowestBid env s1 = Done tt s1' out1
    ∧ findLowestBid env s2 = Done tt s2' out2
    ∧ events out1 = [LowestBidCalculated first (block_timestamp env)]
    ∧ events out2 = events out1
    ∧ _lowestBidder s2' = _lowestBidder s1'.
Proof.
  intros Hr1 Hr2 Hm1 Hm2. rewrite Hr1 in Hr2.
  eexists _, _, _, _.
  split; [by apply (findLowestBid_done env s1 first rest m1)|].
  split; [by apply (findLowestBid_done env s2 first rest m2)|]. done.
Qed.

End Disclosure.

(** ** The computed flag over a history *)

Section ComputedFlag.
Context {F : FHEService}.

Lemma is_find_true c : is_find c = true → c = CallFindLowestBid.
Proof. by destruct c. Qed.

Lemma pass_since_last_mutation_nil : ¬ pass_since_last_mutation [].
Proof. intros (before & after & Heq & _). by destruct before. Qed.

Lemma pass_since_last_mutation_snoc calls c :
  pass_since_last_mutation (calls ++ [c]) ↔
    is_find c = true ∨ (is_submit c = false ∧ pass_since_last_mutation calls).
Proof.
  split.
  - intros (before & after & Heq & Hall).
    destruct after as [|c' after' _] using rev_ind.
    + apply app_inj_tail in Heq as [_ ->]. by left.
    + rewrite app_comm_cons, app_assoc in Heq.
      apply app_inj_tail in Heq as [-> ->].
      apply Forall_app in Hall as [Hall Hc].
      right. split; [by inversion Hc|]. by exists before, after'.
  - intros [->%is_find_true|(Hc & before & after & -> & Hall)].
    + exists calls, []. split; [done|constructor].
    + exists before, (after ++ [c]). split.
      * by rewrite <- app_assoc.
      * apply Forall_app. split; [done|]. by constructor.
Qed.

(** Two ways of singling out one element of the same list. *)
Lemma split_twice {A} (l1 l2 b a : list A) (x y : A) :
  l1 ++ x :: l2 = b ++ y :: a →
  x ∈ a ∨ x = y ∨ y ∈ l2.
Proof.
  revert b. induction l1 as [|z l1 IH]; intros [|z' b]; cbn; intros [= -> Heq].
  - right. by left.
  - right. right. rewrite Heq. apply elem_of_app. right. apply elem_of_cons. by left.
  - left. rewrite <- Heq. apply elem_of_app. right. apply elem_of_cons. by left.
  - by apply IH in Heq.
Qed.

Lemma flag_tracks_pass self o txs :
  let w0 := {| storage := initial_storage o; trace := [] |} in
  _lowestBidCalculated (storage (run self txs w0)) = true
    ↔ pass_since_last_mutation (tx_call <$> committed self txs w0).
Proof.
  intros w0. induction txs as [|tx txs IH] using rev_ind.
  - cbn. split; [done|]. intros H. by apply pass_since_last_mutation_nil in H.
  - rewrite run_snoc, committed_snoc, fmap_app.
    destruct (transact_Step self tx (run self txs w0))
      as [h proof p Hc Hp|first rest m Hc Hr Hm|Hs Hf|Hs]; cbn [fmap list_fmap].
    + rewrite pass_since_last_mutation_snoc, Hc. cbn.
      split; [done|]. by intros [?|[? _]].
    + rewrite pass_since_last_mutation_snoc, Hc. cbn.
      split; [by left|done].
    + rewrite pass_since_last_mutation_snoc, Hs, Hf, IH.
      split; [by right|]. by intros [?|[_ ?]].
    + by rewrite app_nil_r.
Qed.

(** C2.  In every world reached from a deployment: the computed flag
    is true exactly when some committed [findLowestBid] has no
    committed [submitBid] after it; a committed [submitBid] (first or
    repeated) leaves it false and a committed [findLowestBid] leaves it
    true; while it is false [getLowestBid] answers with the zero
    ciphertext and [false]; and once a [submitBid] has committed,
    [getLowestBid] reports [false] for as long as no later
    [findLowestBid] commits. *)
Theorem computedFlag_tracks_latest_pass self o w0 txs :
  deploy o = Some w0 →
  (_lowestBidCalculated (storage (run self txs w0)) = true
     ↔ pass_since_last_mutation (tx_call <$> committed self txs w0))
  ∧ (∀ tx, is_submit (tx_call tx) = true →
       succeeds self tx (run self txs w0) = true →
       _lowestBidCalculated (storage (transact self tx (run self txs w0)).1) = false)
  ∧ (∀ tx, is_find (tx_call tx) = true →
       succeeds self tx (run self txs w0) = true →
       _lowestBidCalculated (storage (transact self tx (run self txs w0)).1) = true)
  ∧ (_lowestBidCalculated (storage (run self txs w0)) = false →
       getLowestBid (storage (run self txs w0)) = (FHE_asEuint32 0, false))
  ∧ (∀ earlier resubmit later,
       committed self txs w0 = earlier ++ resubmit :: later →
       is_submit (tx_call resubmit) = true →
       Forall (λ t, is_find (tx_call t) = false) later →
       (getLowestBid (storage (run self txs w0))).2 = false).
Proof.
  intros [_ ->]%deploy_Some.
  pose proof (flag_tracks_pass self o txs) as Hiff. cbn zeta in Hiff.
  pose proof (world_inv_run self o txs) as (_ & Hzero & _).
  set (w := run self txs _) in *.
  split; [done|]. split; [|split; [|split]].
  - intros tx Hs Hok. pose proof (transact_Step self tx w) as HS.
    rewrite Hok in HS.
    inversion HS as [h proof p Hc Hp Hw|first rest m Hc Hr Hm Hw|Hs' Hf Hw|];
      [done|by rewrite Hc in Hs|congruence].
  - intros tx Hf Hok. pose proof (transact_Step self tx w) as HS.
    rewrite Hok in HS.
    inversion HS as [h proof p Hc Hp Hw|first rest m Hc Hr Hm Hw|Hs' Hf' Hw|];
      [by rewrite Hc in Hf|done|congruence].
  - intros Hflag. unfold getLowestBid. by rewrite Hflag, Hzero.
  - intros earlier resubmit later Hsplit Hsub Hlater.
    unfold getLowestBid.
    destruct (_lowestBidCalculated (storage w)) eqn:Hflag; [|done].
    exfalso. destruct Hiff as [Hpass _].
    destruct (Hpass eq_refl) as (before & after & Heq & Hall).
    rewrite Hsplit, fmap_app, fmap_cons in Heq.
    apply split_twice in Heq as [Hin|[Heq|Hin]].
    + rewrite Forall_forall in Hall. apply Hall in Hin. congruence.
    + by rewrite Heq in Hsub.
    + apply list_elem_of_fmap in Hin as (t & Ht & Hin).
      rewrite Forall_forall in Hlater. apply Hlater in Hin.
      by rewrite <- Ht in Hin.
Qed.

End ComputedFlag.

(** ** The roster over a history *)

Section Roster.
Context {F : FHEService}.

Lemma elem_of_first_seen l : ∀ a, a ∈ first_seen l ↔ a ∈ l.
Proof.
  induction l as [|b l IH]; intros a; cbn; [done|].
  rewrite !elem_of_cons, list_elem_of_filter, IH.
  destruct (decide (a = b)); tauto.
Qed.

Lemma NoDup_first_seen l : NoDup (first_seen l).
Proof.
  induction l as [|b l IH]; cbn; [constructor|].
  apply NoDup_cons. split; [|by apply NoDup_filter].
  rewrite list_elem_of_filter. by intros [? _].
Qed.

Lemma first_seen_snoc l a :
  first_seen (l ++ [a]) =
    if decide (a ∈ l) then first_seen l else first_seen l ++ [a].
Proof.
  induction l as [|b l IH]; cbn.
  - by rewrite decide_False by apply not_elem_of_nil.
  - rewrite IH. destruct (decide (a ∈ l)) as [Hin|Hnin].
    + rewrite decide_True; [done|]. apply elem_of_cons. by right.
    + rewrite filter_app. destruct (decide (a = b)) as [->|Hne].
      * rewrite decide_True by (apply elem_of_cons; by left).
        rewrite filter_cons_False by (intros H; by apply H).
        by rewrite filter_nil, app_nil_r.
      * rewrite decide_False by (by intros [?|?]%elem_of_cons).
        by rewrite filter_cons_True by done.
Qed.

Lemma submitters_snoc self txs tx w0 :
  submitters self (txs ++ [tx]) w0 =
    submitters self txs w0 ++
      (if succeeds self tx (run self txs w0) && is_submit (tx_call tx)
       then [tx_sender tx] else []).
Proof.
  unfold submitters. rewrite committed_snoc, filter_app, fmap_app. f_equal.
  destruct (succeeds self tx _); cbn [andb]; [|done].
  destruct (is_submit (tx_call tx)) eqn:Hs.
  - by rewrite filter_cons_True by done.
  - rewrite filter_cons_False; [done|]. by rewrite Hs.
Qed.

Lemma roster_first_seen self o txs :
  let w0 := {| storage := initial_storage o; trace := [] |} in
  _bidders (storage (run self txs w0)) = first_seen (submitters self txs w0).
Proof.
  intros w0. induction txs as [|tx txs IH] using rev_ind; [done|].
  pose proof (world_inv_run self o txs) as (_ & _ & Hled & _). fold w0 in Hled.
  rewrite run_snoc, submitters_snoc.
  destruct (transact_Step self tx (run self txs w0))
    as [h proof p Hc Hp|first rest m Hc Hr Hm|Hs Hf|Hs].
  - rewrite Hc. cbn. rewrite first_seen_snoc, <- IH.
    assert (tx_sender tx ∈ submitters self txs w0
            ↔ tx_sender tx ∈ _bidders (storage (run self txs w0))) as Hmem
      by by rewrite IH, elem_of_first_seen.
    destruct (exists_ (bid_at _ (tx_sender tx))) eqn:Hex.
    + apply (ledger_inv_exists _ _ Hled) in Hex.
      rewrite decide_True; [done|]. by apply Hmem.
    + rewrite decide_False; [done|]. intros Hin%Hmem.
      apply (ledger_inv_exists _ _ Hled) in Hin. congruence.
  - rewrite Hc. cbn. by rewrite app_nil_r.
  - rewrite Hs. cbn. by rewrite app_nil_r.
  - cbn. by rewrite app_nil_r.
Qed.

(** C3.  In every world reached from a deployment, [getAllBidders] is
    the list of the senders of the committed submissions with each
    identity kept once, at its first submission; it has no repetition
    and the ledger has an entry exactly for its members.  A committed
    submission by an identity already on the roster leaves the roster
    and the set of ledger keys as they are and overwrites that
    identity's entry with the new ciphertext and time; one by a new
    identity appends it to the roster. *)
Theorem roster_is_first_submission_order self o w0 txs :
  deploy o = Some w0 →
  getAllBidders (storage (run self txs w0)) = first_seen (submitters self txs w0)
  ∧ NoDup (getAllBidders (storage (run self txs w0)))
  ∧ (∀ a, a ∈ getAllBidders (storage (run self txs w0))
          ↔ a ∈ submitters self txs w0)
  ∧ (∀ a, a ∈ getAllBidders (storage (run self txs w0))
          ↔ is_Some (_bids (storage (run self txs w0)) !! a))
  ∧ (∀ tx h proof p,
       tx_call tx = CallSubmitBid h proof →
       FHE_fromExternal self (tx_sender tx) h proof = Some p →
       let s := storage (run self txs w0) in
       let s' := storage (transact self tx (run self txs w0)).1 in
       let entry := {| encryptedPrice := p; bidder := tx_sender tx;
                       timestamp := tx_time tx; exists_ := true |} in
       _bids s' = <[tx_sender tx := entry]> (_bids s)
       ∧ (tx_sender tx ∈ _bidders s →
            _bidders s' = _bidders s ∧ dom (_bids s') = dom (_bids s))
       ∧ (tx_sender tx ∉ _bidders s →
            _bidders s' = _bidders s ++ [tx_sender tx])).
Proof.
  intros [_ ->]%deploy_Some.
  pose proof (roster_first_seen self o txs) as Hroster. cbn zeta in Hroster.
  pose proof (world_inv_run self o txs) as (_ & _ & Hled & _).
  set (w := run self txs _) in *. unfold getAllBidders.
  split; [done|]. split; [apply Hled|]. split; [|split].
  - intros a. by rewrite Hroster, elem_of_first_seen.
  - intros a. destruct Hled as [_ Hled]. specialize (Hled a).
    destruct (_bids (storage w) !! a) as [b|].
    + destruct Hled as (? & _). split; [by eexists|done].
    + split; [done|]. by intros [? ?].
  - intros tx h proof p Hc Hp. cbn zeta.
    rewrite (transact_submit_ok _ _ _ _ _ _ Hc Hp). cbn.
    pose proof (ledger_inv_exists _ (tx_sender tx) Hled) as Hex.
    pose proof (ledger_inv_bidder _ (tx_sender tx) Hled) as Hbid.
    destruct (exists_ (bid_at (storage w) (tx_sender tx))) eqn:He.
    + assert (tx_sender tx ∈ _bidders (storage w)) as Hin by by apply Hex.
      rewrite (Hbid Hin). split; [done|]. split; [|done].
      intros _. split; [done|]. rewrite dom_insert_L.
      apply subseteq_union_1_L, singleton_subseteq_l.
      apply elem_of_dom. destruct Hled as [_ Hled].
      specialize (Hled (tx_sender tx)).
      destruct (_bids (storage w) !! tx_sender tx); [by eexists|done].
    + split; [done|]. split; [|done]. intros Hin. apply Hex in Hin. congruence.
Qed.

End Roster.

(** ** Which operation writes which state *)

Section Frame.
Context {F : FHEService}.

(** C5, amended.  The bid ledger ([_bids], [_bidders]) is written only
    by [submitBid]; the stored minimum ([_lowestBid], [_lowestBidder])
    only by [findLowestBid]; the computed flag by both, a committed
    [findLowestBid] setting it to true and a committed [submitBid]
    resetting it to false; every other operation leaves the world as
    it was. *)
Theorem writers_of_each_component self tx w :
  (is_submit (tx_call tx) = false →
     _bids (storage (transact self tx w).1) = _bids (storage w)
     ∧ _bidders (storage (transact self tx w).1) = _bidders (storage w))
  ∧ (is_find (tx_call tx) = false →
     _lowestBid (storage (transact self tx w).1) = _lowestBid (storage w)
     ∧ _lowestBidder (storage (transact self tx w).1) = _lowestBidder (storage w))
  ∧ (is_submit (tx_call tx) = true → succeeds self tx w = true →
     _lowestBidCalculated (storage (transact self tx w).1) = false)
  ∧ (is_find (tx_call tx) = true → succeeds self tx w = true →
     _lowestBidCalculated (storage (transact self tx w).1) = true)
  ∧ (is_submit (tx_call tx) = false → is_find (tx_call tx) = false →
     (transact self tx w).1 = w).
Proof.
  destruct (transact_Step self tx w)
    as [h proof p Hc Hp|first rest m Hc Hr Hm|Hs Hf|Hs];
    rewrite ?Hc; cbn; repeat split; try done; congruence.
Qed.

End Frame.

(** ** The contract on the test ledger *)

Section ScenarioChecks.
Import Scenario.
Local Existing Instance Stub.service.

Lemma findLowestBid_computes_minimum_witness :
  _bidders ledger3 = [alice; bob; charlie]
  ∧ running_min ledger3 alice [bob; charlie] = Some 800
  ∧ ∃ s' out,
      findLowestBid env_find ledger3 = Done tt s' out
      ∧ decrypt32 (_lowestBid s') = 800
      ∧ ∀ a, a ∈ _bidders ledger3 →
             decrypt32 (_lowestBid s') ≤ decrypt32 (price ledger3 a).
Proof.
  split; [reflexivity|]. split; [reflexivity|].
  destruct (findLowestBid_computes_minimum Stub_laws env_find ledger3
              alice [bob; charlie] eq_refl) as [Hruns Hmin].
  destruct (Hruns 800 eq_refl) as (s' & out & Hrun & Hstored).
  destruct (Hmin s' out Hrun) as (_ & _ & _ & Hleast).
  exists s', out. split; [exact Hrun|]. split; [|exact Hleast].
  rewrite Hstored. reflexivity.
Defined.

Lemma findLowestBid_empty_ledger_witness :
  _bidders (storage world0) = []
  ∧ transact self (find organizer_ 13) world0 = (world0, None).
Proof.
  split; [reflexivity|].
  exact (proj2 (findLowestBid_empty_ledger self (find organizer_ 13) world0
                  eq_refl eq_refl)).
Defined.

Lemma submitBid_invalid_proof_witness :
  FHE_fromExternal self alice (1000 : N) [] = None
  ∧ transact self unproved world0 = (world0, None).
Proof.
  split; [reflexivity|].
  exact (proj2 (submitBid_invalid_proof self unproved world0 (1000 : N) []
                  eq_refl eq_refl)).
Defined.

Lemma findLowestBid_idempotent_witness :
  findLowestBid env_find ledger3 =
    Done tt (after_find ledger3 alice 800)
      [Allow 800 self; Allow 800 organizer_; Emit (LowestBidCalculated alice 13)]
  ∧ ∃ s2 out2,
      findLowestBid env_find (after_find ledger3 alice 800) = Done tt s2 out2
      ∧ s2 = after_find ledger3 alice 800
      ∧ getLowestBid s2 = (800, true).
Proof.
  pose proof (findLowestBid_done env_find ledger3 alice [bob; charlie] 800
                eq_refl eq_refl) as Hrun.
  split; [exact Hrun|].
  destruct (findLowestBid_idempotent env_find env_find ledger3 _ _ Hrun)
    as (s2 & out2 & Hrun2 & Hsame & _ & Hget1 & Hget2).
  exists s2, out2. split; [exact Hrun2|]. split; [exact Hsame|].
  rewrite Hget2. exact Hget1.
Defined.

Lemma lowestBidder_is_first_roster_entry_witness :
  _bidders ledger3 = [alice; bob; charlie]
  ∧ decrypt32 (price ledger3 bob) = 800
  ∧ ∃ s' out,
      findLowestBid env_find ledger3 = Done tt s' out
      ∧ _lowestBidder s' = alice
      ∧ events out = [LowestBidCalculated alice 13].
Proof.
  split; [reflexivity|]. split; [reflexivity|].
  destruct (lowestBidder_is_first_roster_entry env_find ledger3
              alice [bob; charlie] eq_refl) as (Hfirst & Hruns & _).
  destruct (Hruns 800 eq_refl) as (s' & out & Hrun).
  exists s', out. split; [exact Hrun|]. exact (Hfirst s' out Hrun).
Defined.

Lemma minimum_granted_to_contract_and_organizer_witness :
  deploy organizer_ = Some world0
  ∧ succeeds self (find organizer_ 13) (run self three_bids world0) = true
  ∧ ∃ out,
      let w := run self three_bids world0 in
      let w' := (transact self (find organizer_ 13) w).1 in
      let m := _lowestBid (storage w') in
      trace w' = trace w ++ out
      ∧ organizer (storage w') = organizer_
      ∧ grants out = [(m, self); (m, organizer_)]
      ∧ (∀ a, Allow m a ∈ trace w' ↔ a = self ∨ a = organizer_)
      ∧ (∀ p, p ∈ _bidders (storage w') → p ≠ self → p ≠ organizer_ →
              Allow m p ∉ trace w').
Proof.
  split; [reflexivity|]. split; [reflexivity|].
  exact (minimum_granted_to_contract_and_organizer self organizer_ world0
           three_bids (find organizer_ 13) eq_refl eq_refl eq_refl).
Defined.

(** C6, counterexample.  On the test ledger the log of
    [findLowestBid] carries Alice, who is on the roster. *)
Lemma notification_names_first_bidder :
  findLowestBid env_find ledger3 =
    Done tt (after_find ledger3 alice 800)
      [Allow 800 self; Allow 800 organizer_; Emit (LowestBidCalculated alice 13)]
  ∧ alice ∈ _bidders ledger3
  ∧ ¬ notification_carries_no_identity.
Proof.
  assert (findLowestBid env_find ledger3 =
    Done tt (after_find ledger3 alice 800)
      [Allow 800 self; Allow 800 organizer_; Emit (LowestBidCalculated alice 13)])
    as Hrun
    by exact (findLowestBid_done env_find ledger3 alice [bob; charlie] 800
                eq_refl eq_refl).
  assert (alice ∈ _bidders ledger3) as Hin by (apply elem_of_cons; by left).
  split; [exact Hrun|]. split; [exact Hin|].
  intros Hclaim.
  apply (Hclaim _ _ _ _ Hrun (LowestBidCalculated alice 13) alice); [| |exact Hin].
  - cbn. apply elem_of_cons. by left.
  - cbn. apply elem_of_cons. by left.
Qed.

Lemma notification_independent_of_bids_witness :
  _bidders ledger3 = [alice; bob; charlie]
  ∧ _bidders ledger3' = _bidders ledger3
  ∧ running_min ledger3 alice [bob; charlie] = Some 800
  ∧ running_min ledger3' alice [bob; charlie] = Some 700
  ∧ price ledger3' bob ≠ price ledger3 bob
  ∧ ∃ s1' out1 s2' out2,
      findLowestBid env_find ledger3 = Done tt s1' out1
      ∧ findLowestBid env_find ledger3' = Done tt s2' out2
      ∧ events out1 = [LowestBidCalculated alice 13]
      ∧ events out2 = events out1
      ∧ _lowestBidder s2' = _lowestBidder s1'.
Proof.
  split; [reflexivity|]. split; [reflexivity|].
  split; [reflexivity|]. split; [reflexivity|].
  split; [vm_compute; discriminate|].
  exact (notification_independent_of_bids env_find ledger3 ledger3'
           alice [bob; charlie] 800 700 eq_refl eq_refl eq_refl eq_refl).
Defined.

Lemma computedFlag_tracks_latest_pass_witness :
  deploy organizer_ = Some world0
  ∧ (getLowestBid (storage (run self evaluated world0))).2 = true
  ∧ (getLowestBid (storage (run self resubmitted world0))).2 = false.
Proof.
  split; [reflexivity|]. split; [reflexivity|].
  destruct (computedFlag_tracks_latest_pass self organizer_ world0 resubmitted
              eq_refl) as (_ & _ & _ & _ & Hstale).
  apply (Hstale evaluated (submit alice 14 900) []);
    [reflexivity|reflexivity|constructor].
Defined.

Lemma roster_is_first_submission_order_witness :
  deploy organizer_ = Some world0
  ∧ submitters self resubmitted world0 = [alice; bob; charlie; alice]
  ∧ getAllBidders (storage (run self resubmitted world0)) = [alice; bob; charlie].
Proof.
  split; [reflexivity|]. split; [reflexivity|].
  rewrite (proj1 (roster_is_first_submission_order self organizer_ world0
                    resubmitted eq_refl)).
  reflexivity.
Defined.

(** C5, counterexample.  After an evaluation of the test ledger the
    computed flag is true; Alice's next submission, which is not a
    [findLowestBid], resets it. *)
Lemma submit_resets_computed_flag :
  is_find (tx_call (submit alice 14 900)) = false
  ∧ _lowestBidCalculated (storage (run self evaluated world0)) = true
  ∧ _lowestBidCalculated
      (storage (transact self (submit alice 14 900) (run self evaluated world0)).1)
      = false
  ∧ ¬ writers_as_specified.
Proof.
  split; [reflexivity|]. split; [reflexivity|]. split; [reflexivity|].
  intros Hclaim.
  destruct (Hclaim self (submit alice 14 900) (run self evaluated world0))
    as [_ Hfind].
  destruct (Hfind eq_refl) as [_ Hflag]. vm_compute in Hflag. discriminate.
Qed.

Lemma writers_of_each_component_witness :
  is_find (tx_call (submit alice 14 900)) = false
  ∧ succeeds self (submit alice 14 900) (run self evaluated world0) = true
  ∧ succeeds self (find organizer_ 13) (run self three_bids world0) = true
  ∧ _lowestBid (storage (run self resubmitted world0)) = 800
  ∧ _lowestBidCalculated (storage (run self resubmitted world0)) = false
  ∧ _lowestBidCalculated (storage (run self evaluated world0)) = true.
Proof.
  split; [reflexivity|]. split; [reflexivity|]. split; [reflexivity|].
  destruct (writers_of_each_component self (submit alice 14 900)
              (run self evaluated world0)) as (_ & Hmin & Hflag & _).
  destruct (writers_of_each_component self (find organizer_ 13)
              (run self three_bids world0)) as (_ & _ & _ & Hset & _).
  split; [|split].
  - unfold resubmitted. rewrite run_snoc.
    rewrite (proj1 (Hmin eq_refl)). reflexivity.
  - unfold resubmitted. rewrite run_snoc.
    exact (Hflag eq_refl eq_refl).
  - unfold evaluated. rewrite run_snoc.
    exact (Hset eq_refl eq_refl).
Defined.

(** The mock-network test "should find lowest bid among multiple bids". *)
Example test_find_lowest_bid :
  getLowestBid (storage (run self evaluated world0)) = (800, true).
Proof. reflexivity. Qed.

(** The mock-network test "should allow bidder to update their bid". *)
Example test_update_bid :
  getBid alice (storage (run self resubmitted world0)) = (900, alice, 14, true)
  ∧ getAllBidders (storage (run self resubmitted world0)) = [alice; bob; charlie].
Proof. split; reflexivity. Qed.

End ScenarioChecks.

(** ** Further properties of the contract *)

Section Coverage.
Context {F : FHEService}.

(** The six ways a transaction can go. *)
Lemma transact_cases self tx w :
  (∃ h proof p,
      tx_call tx = CallSubmitBid h proof
      ∧ FHE_fromExternal self (tx_sender tx) h proof = Some p
      ∧ transact self tx w = (world_after_submit self tx p w, Some VUnit))
  ∨ (∃ h proof,
      tx_call tx = CallSubmitBid h proof
      ∧ FHE_fromExternal self (tx_sender tx) h proof = None
      ∧ transact self tx w = (w, None))
  ∨ (∃ first rest m,
      tx_call tx = CallFindLowestBid
      ∧ _bidders (storage w) = first :: rest
      ∧ running_min (storage w) first rest = Some m
      ∧ transact self tx w = (world_after_find self tx first m w, Some VUnit))
  ∨ (∃ first rest,
      tx_call tx = CallFindLowestBid
      ∧ _bidders (storage w) = first :: rest
      ∧ running_min (storage w) first rest = None
      ∧ transact self tx w = (w, None))
  ∨ (tx_call tx = CallFindLowestBid
      ∧ _bidders (storage w) = []
      ∧ transact self tx w = (w, None))
  ∨ (is_mutation (tx_call tx) = false ∧ ∃ v, transact self tx w = (w, Some v)).
Proof.
  destruct (tx_call tx) as [h proof| | | | | |] eqn:Hc.
  - destruct (FHE_fromExternal self (tx_sender tx) h proof) as [p|] eqn:Hp.
    + left. exists h, proof, p. eauto using transact_submit_ok.
    + right; left. exists h, proof. eauto using transact_submit_fail.
  - destruct (_bidders (storage w)) as [|first rest] eqn:Hr.
    + do 4 right; left. eauto using transact_find_fail.
    + destruct (running_min (storage w) first rest) as [m|] eqn:Hm.
      * do 2 right; left. exists first, rest, m. eauto using transact_find_ok.
      * do 3 right; left. exists first, rest. eauto using transact_find_refused.
  - do 5 right. split; [done|]. apply transact_view; by rewrite Hc.
  - do 5 right. split; [done|]. apply transact_view; by rewrite Hc.
  - do 5 right. split; [done|]. apply transact_view; by rewrite Hc.
  - do 5 right. split; [done|]. apply transact_view; by rewrite Hc.
  - do 5 right. split; [done|]. apply transact_view; by rewrite Hc.
Qed.

Ltac by_cases self tx w :=
  destruct (transact_cases self tx w)
    as [(?h & ?proof & ?p & ?Hc & ?Hp & ?Ht)
       |[(?h & ?proof & ?Hc & ?Hp & ?Ht)
        |[(?first & ?rest & ?m & ?Hc & ?Hr & ?Hmin & ?Ht)
         |[(?first & ?rest & ?Hc & ?Hr & ?Hmin & ?Ht)
          |[(?Hc & ?Hr & ?Ht)
           |(?Hm & ?v & ?Ht)]]]]].

(** X1.  The constructor refuses exactly the zero organizer.  A fresh
    contract has its organizer set, no bidder, no bid for anyone, no
    grant or log, reports no lowest bid, and rejects [findLowestBid]. *)
Theorem deploy_fresh o :
  (deploy o = None ↔ o = 0)
  ∧ ∀ w0, deploy o = Some w0 →
      organizer (storage w0) = o
      ∧ getAllBidders (storage w0) = []
      ∧ trace w0 = []
      ∧ getLowestBid (storage w0) = (FHE_asEuint32 0, false)
      ∧ (∀ a, hasBid a (storage w0) = false
              ∧ getBid a (storage w0) = (euint32_zero, 0, 0, false))
      ∧ (∀ self tx, tx_call tx = CallFindLowestBid →
              transact self tx w0 = (w0, None)).
Proof.
  split.
  - unfold deploy, constructor. destruct (N.eqb_spec o 0); cbn; split; done.
  - intros w0 [_ ->]%deploy_Some. cbn. repeat split.
    intros self tx Hc. by apply transact_find_fail.
Qed.

(** X2.  Whatever transactions follow a deployment, the [organizer]
    getter keeps answering with the constructor's argument, which is
    not the zero address. *)
Theorem organizer_never_changes self o w0 txs tx :
  deploy o = Some w0 →
  tx_call tx = CallOrganizer →
  o ≠ 0
  ∧ transact self tx (run self txs w0) = (run self txs w0, Some (VAddress o)).
Proof.
  intros Hd Hc. pose proof Hd as [Ho ->]%deploy_Some. split; [done|].
  pose proof (world_inv_run self o txs) as (Horg & _).
  destruct (run self txs _) as [s tr]. cbn in Horg.
  unfold transact. rewrite Hc. host_unfold. cbn. by rewrite app_nil_r, Horg.
Qed.

(** X3.  In every world reached from a deployment the three views
    agree: [hasBid] holds exactly of the members of [getAllBidders];
    [getBid] of a member carries that member and [exists = true];
    [getBid] of anyone else is the all-zero tuple; and the roster is as
    long as the ledger has entries. *)
Theorem views_agree self o w0 txs a :
  deploy o = Some w0 →
  (hasBid a (storage (run self txs w0)) = true
     ↔ a ∈ getAllBidders (storage (run self txs w0)))
  ∧ (a ∈ getAllBidders (storage (run self txs w0)) →
       ∃ p t, getBid a (storage (run self txs w0)) = (p, a, t, true))
  ∧ (a ∉ getAllBidders (storage (run self txs w0)) →
       getBid a (storage (run self txs w0)) = (euint32_zero, 0, 0, false))
  ∧ length (getAllBidders (storage (run self txs w0)))
      = size (_bids (storage (run self txs w0))).
Proof.
  intros [_ ->]%deploy_Some.
  pose proof (world_inv_run self o txs) as (_ & _ & Hled & _).
  set (s := storage (run self txs _)) in *.
  unfold hasBid, getAllBidders, getBid.
  split; [by apply ledger_inv_exists|].
  pose proof (proj2 Hled a) as Ha. unfold bid_at.
  split; [|split].
  - intros Hin. destruct (_bids s !! a) as [b|]; [|done]. cbn.
    destruct Ha as (_ & -> & ->). eauto.
  - intros Hnin. destruct (_bids s !! a) as [b|]; [|done].
    by destruct Ha as (? & _).
  - destruct Hled as [Hnd Hall].
    rewrite <- size_dom, <- (size_list_to_set (C:=gset N)) by done.
    f_equal. apply set_eq. intros x.
    rewrite elem_of_list_to_set, elem_of_dom. specialize (Hall x).
    destruct (_bids s !! x) as [b|].
    + destruct Hall as (? & _). split; [by eexists|done].
    + split; [done|]. by intros [? ?].
Qed.

Lemma bid_at_after_submit_same s a p t :
  ledger_inv s →
  bid_at (after_submit s a p t) a
    = {| encryptedPrice := p; bidder := a; timestamp := t; exists_ := true |}.
Proof.
  intros Hled. unfold bid_at at 1. cbn. rewrite lookup_insert_eq. cbn.
  destruct (exists_ (bid_at s a)) eqn:Hex; [|done].
  rewrite (ledger_inv_bidder s a Hled); [done|].
  by apply (ledger_inv_exists s a Hled).
Qed.

Lemma bid_at_after_submit_other s a p t b :
  b ≠ a → bid_at (after_submit s a p t) b = bid_at s b.
Proof. intros Hne. unfold bid_at. cbn. by rewrite lookup_insert_ne. Qed.

(** X4.  A committed [submitBid] issues exactly two grants on the
    imported ciphertext, to the contract and to the organizer (none to
    the sender), and logs one [BidSubmitted] with the sender and the
    block time; afterwards [getBid] of the sender returns that
    ciphertext and time, and nobody else's bid has changed. *)
Theorem submitBid_effects self o w0 txs tx h proof p :
  deploy o = Some w0 →
  tx_call tx = CallSubmitBid h proof →
  FHE_fromExternal self (tx_sender tx) h proof = Some p →
  trace (transact self tx (run self txs w0)).1
    = trace (run self txs w0)
        ++ [Allow p self; Allow p o;
            Emit (BidSubmitted (tx_sender tx) (tx_time tx))]
  ∧ getBid (tx_sender tx) (storage (transact self tx (run self txs w0)).1)
      = (p, tx_sender tx, tx_time tx, true)
  ∧ ∀ b, b ≠ tx_sender tx →
      getBid b (storage (transact self tx (run self txs w0)).1)
        = getBid b (storage (run self txs w0))
      ∧ hasBid b (storage (transact self tx (run self txs w0)).1)
        = hasBid b (storage (run self txs w0)).
Proof.
  intros [_ ->]%deploy_Some Hc Hp.
  pose proof (world_inv_run self o txs) as (Horg & _ & Hled & _).
  set (w := run self txs _) in *.
  rewrite (transact_submit_ok _ _ _ _ _ _ Hc Hp). cbn [fst].
  unfold getBid, hasBid. cbn [storage trace world_after_submit].
  rewrite Horg, bid_at_after_submit_same by done. cbn.
  split; [done|]. split; [done|].
  intros b Hne. by rewrite bid_at_after_submit_other.
Qed.

(** X10.  A call goes through exactly when: for [submitBid], the
    service accepts the input; for [findLowestBid], the roster is not
    empty and the service accepts every comparison and selection of
    the fold over it; for a view, always.  Neither function looks at
    who calls. *)
Theorem succeeds_iff_accepted self tx w :
  succeeds self tx w = true ↔ accepted self tx w.
Proof.
  unfold succeeds, accepted. by_cases self tx w; rewrite Ht; cbn.
  - rewrite Hc, Hp. split; [by eexists|done].
  - rewrite Hc, Hp. split; [done|]. by intros [? ?].
  - rewrite Hc, Hr, Hmin. split; [by eexists|done].
  - rewrite Hc, Hr, Hmin. split; [done|]. by intros [? ?].
  - rewrite Hc, Hr. done.
  - destruct (tx_call tx); done.
Qed.

End Coverage.

(** ** Further properties of histories *)

Section HistoryFacts.
Context {F : FHEService}.

Ltac by_cases self tx w :=
  destruct (transact_cases self tx w)
    as [(?h & ?proof & ?p & ?Hc & ?Hp & ?Ht)
       |[(?h & ?proof & ?Hc & ?Hp & ?Ht)
        |[(?first & ?rest & ?m & ?Hc & ?Hr & ?Hmin & ?Ht)
         |[(?first & ?rest & ?Hc & ?Hr & ?Hmin & ?Ht)
          |[(?Hc & ?Hr & ?Ht)
           |(?Hm & ?v & ?Ht)]]]]].

Lemma latest_submission_snoc self txs tx a :
  latest_submission self (txs ++ [tx]) a =
    match submission_by self a tx with
    | Some x => Some x
    | None => latest_submission self txs a
    end.
Proof.
  unfold latest_submission. rewrite omap_app. cbn.
  destruct (submission_by self a tx); cbn.
  - by rewrite last_snoc.
  - by rewrite app_nil_r.
Qed.

(** X5.  In every world reached from a deployment, [getBid] of an
    identity returns the ciphertext and block time of that identity's
    most recent accepted submission, and the all-zero tuple if there
    is none: the last write wins, and no other call touches a bid. *)
Theorem getBid_is_latest_submission self o w0 txs a :
  deploy o = Some w0 →
  getBid a (storage (run self txs w0)) =
    match latest_submission self txs a with
    | Some (p, t) => (p, a, t, true)
    | None => (euint32_zero, 0, 0, false)
    end.
Proof.
  intros [_ ->]%deploy_Some.
  induction txs as [|tx txs IH] using rev_ind; [done|].
  pose proof (world_inv_run self o txs) as (_ & _ & Hled & _).
  rewrite run_snoc, latest_submission_snoc.
  unfold submission_by, submission_of.
  by_cases self tx (run self txs {| storage := initial_storage o; trace := [] |});
    rewrite Ht; cbn [fst]; rewrite ?Hc, ?Hp; cbn; try done.
  - unfold getBid in *. cbn [storage world_after_submit].
    destruct (decide (tx_sender tx = a)) as [<-|Hne].
    + by rewrite bid_at_after_submit_same.
    + by rewrite bid_at_after_submit_other.
  - destruct (tx_call tx); done.
Qed.

Lemma transact_grows self tx w :
  _bidders (storage w) `prefix_of` _bidders (storage (transact self tx w).1)
  ∧ trace w `prefix_of` trace (transact self tx w).1.
Proof.
  by_cases self tx w; rewrite Ht; cbn; try done.
  - split; [|by apply prefix_app_r].
    destruct (exists_ (bid_at (storage w) (tx_sender tx))); [done|].
    by apply prefix_app_r.
  - split; [done|by apply prefix_app_r].
Qed.

(** X6.  The roster and the record of grants and logs only ever grow
    at the end: whatever transactions run, the earlier roster is a
    prefix of the later one (nobody is removed or moved) and the
    earlier trace is a prefix of the later one. *)
Theorem roster_and_trace_only_grow self txs w :
  _bidders (storage w) `prefix_of` _bidders (storage (run self txs w))
  ∧ trace w `prefix_of` trace (run self txs w).
Proof.
  induction txs as [|tx txs [IHr IHt]] using rev_ind; [done|].
  rewrite run_snoc.
  destruct (transact_grows self tx (run self txs w)) as [Hr Ht].
  split; by etrans.
Qed.

Lemma minimum_fresh_run self o txs :
  minimum_fresh
    (storage (run self txs {| storage := initial_storage o; trace := [] |})).
Proof.
  apply (run_invariant (λ w, minimum_fresh (storage w))); [done|].
  intros w tx Hfresh. by_cases self tx w; rewrite Ht; cbn [fst]; try done.
  intros _. exists first, rest. split; [done|]. split; [|done].
  cbn [storage world_after_find]. by rewrite running_min_after_find.
Qed.

(** X7.  In every world reached from a deployment, whenever
    [getLowestBid] answers [exists = true] the roster is not empty and
    the ciphertext it returns is the fold over the ledger as it stands
    now, never a stale one; the service honouring its contracts, its
    plaintext is the least of the current bid values. *)
Theorem getLowestBid_is_current_minimum (L : FHELaws F) self o w0 txs ct :
  deploy o = Some w0 →
  getLowestBid (storage (run self txs w0)) = (ct, true) →
  ∃ first rest,
    _bidders (storage (run self txs w0)) = first :: rest
    ∧ running_min (storage (run self txs w0)) first rest = Some ct
    ∧ (∃ a, a ∈ _bidders (storage (run self txs w0))
            ∧ decrypt32 ct = decrypt32 (price (storage (run self txs w0)) a))
    ∧ (∀ a, a ∈ _bidders (storage (run self txs w0)) →
            decrypt32 ct ≤ decrypt32 (price (storage (run self txs w0)) a)).
Proof.
  intros [_ ->]%deploy_Some Hget.
  pose proof (minimum_fresh_run self o txs) as Hfresh.
  set (s := storage (run self txs _)) in *.
  unfold getLowestBid in Hget.
  destruct (_lowestBidCalculated s) eqn:Hflag; [|done]. cbn in Hget.
  injection Hget as <-.
  destruct (Hfresh Hflag) as (first & rest & Hr & Hmin & _).
  exists first, rest. split; [done|]. split; [done|].
  destruct (decrypt_fold_min_step L s rest (price s first) _ Hmin)
    as (Hle & Hall & Hmem).
  rewrite Hr. split.
  - destruct Hmem as [Heq|(a & Ha & Heq)].
    + exists first. split; [apply elem_of_cons; by left|done].
    + exists a. split; [apply elem_of_cons; by right|done].
  - intros a [->|Ha]%elem_of_cons; [done|by apply Hall].
Qed.

Lemma grants_cover_step self o tx w :
  world_inv self o w → grants_cover self o w →
  grants_cover self o (transact self tx w).1.
Proof.
  intros (Horg & _ & Hled & _) [Hbids Hmin].
  by_cases self tx w; rewrite Ht; cbn [fst]; try done.
  - split; [|done]. cbn [storage trace world_after_submit].
    intros a Ha. unfold price. rewrite Horg.
    destruct (decide (a = tx_sender tx)) as [->|Hne].
    + rewrite bid_at_after_submit_same by done. cbn.
      rewrite !elem_of_app, !elem_of_cons. auto.
    + rewrite bid_at_after_submit_other by done.
      assert (a ∈ _bidders (storage w)) as Hin.
      { cbn in Ha. destruct (exists_ (bid_at (storage w) (tx_sender tx))); [done|].
        apply elem_of_app in Ha as [?|?%list_elem_of_singleton]; done. }
      destruct (Hbids a Hin). rewrite !elem_of_app. auto.
  - split; cbn [storage trace world_after_find].
    + intros a Ha. destruct (Hbids a Ha). rewrite !elem_of_app. auto.
    + intros _. rewrite Horg, !elem_of_app, !elem_of_cons. auto.
Qed.

(** X8.  In every world reached from a deployment, every ciphertext
    the contract reports as present, each roster member's bid and,
    while the computed flag is set, the lowest bid, has been granted
    to the contract itself and to the organizer. *)
Theorem organizer_is_granted_every_ciphertext self o w0 txs :
  deploy o = Some w0 →
  grants_cover self o (run self txs w0).
Proof.
  intros [_ ->]%deploy_Some.
  induction txs as [|tx txs IH] using rev_ind.
  - split; cbn; [|done]. intros a Ha. by apply elem_of_nil in Ha.
  - rewrite run_snoc. apply grants_cover_step; [apply world_inv_run|done].
Qed.

Lemma events_app out1 out2 : events (out1 ++ out2) = events out1 ++ events out2.
Proof. apply omap_app. Qed.

Lemma head_prefix {A} (l k : list A) x :
  l `prefix_of` k → head l = Some x → head k = Some x.
Proof. intros [k' ->] Hx. by destruct l. Qed.

Lemma first_bidder_logged_step self tx w :
  (∀ b t, LowestBidCalculated b t ∈ events (trace w) →
          head (_bidders (storage w)) = Some b) →
  ∀ b t, LowestBidCalculated b t ∈ events (trace (transact self tx w).1) →
         head (_bidders (storage (transact self tx w).1)) = Some b.
Proof.
  intros Hinv b t Hin.
  destruct (transact_grows self tx w) as [Hgrow _].
  revert Hin Hgrow. by_cases self tx w; rewrite Ht; cbn [fst]; try (by eauto).
  - cbn [storage trace world_after_submit]. rewrite events_app. cbn.
    intros [Hin|Hin]%elem_of_app Hgrow.
    + eapply head_prefix; [exact Hgrow|]. by eapply Hinv.
    + apply list_elem_of_singleton in Hin. done.
  - cbn [storage trace world_after_find]. rewrite events_app. cbn.
    intros [Hin|Hin]%elem_of_app _.
    + by eapply Hinv.
    + apply list_elem_of_singleton in Hin as [= -> _]. by rewrite Hr.
Qed.

(** X9.  In every world reached from a deployment, the logs are, in
    order, one per committed [submitBid] and [findLowestBid]: a
    [BidSubmitted] with the sender and block time of its transaction,
    a [LowestBidCalculated] with the block time of its transaction;
    views and rolled-back calls log nothing.  Every
    [LowestBidCalculated] ever logged names the head of the roster,
    the first identity that ever submitted. *)
Theorem log_records_committed_mutations self o w0 txs :
  deploy o = Some w0 →
  Forall2 logs_tx
    (filter (λ t, is_mutation (tx_call t) = true) (committed self txs w0))
    (events (trace (run self txs w0)))
  ∧ ∀ b t, LowestBidCalculated b t ∈ events (trace (run self txs w0)) →
           head (_bidders (storage (run self txs w0))) = Some b.
Proof.
  intros [_ ->]%deploy_Some. split.
  - induction txs as [|tx txs IH] using rev_ind; [constructor|].
    rewrite run_snoc, committed_snoc, filter_app.
    unfold succeeds.
    by_cases self tx (run self txs {| storage := initial_storage o; trace := [] |});
      rewrite Ht; cbn [fst snd].
    + cbn [storage trace world_after_submit]. rewrite events_app.
      apply Forall2_app; [done|].
      rewrite filter_cons_True by (by rewrite Hc). cbn.
      repeat constructor. unfold logs_tx. by rewrite Hc.
    + by rewrite app_nil_r.
    + cbn [storage trace world_after_find]. rewrite events_app.
      apply Forall2_app; [done|].
      rewrite filter_cons_True by (by rewrite Hc). cbn.
      repeat constructor. unfold logs_tx. by rewrite Hc.
    + by rewrite app_nil_r.
    + by rewrite app_nil_r.
    + rewrite filter_cons_False by (by rewrite Hm). by rewrite app_nil_r.
  - apply (run_invariant (λ w, ∀ b t,
             LowestBidCalculated b t ∈ events (trace w) →
             head (_bidders (storage w)) = Some b)).
    + cbn. intros b t Hin. by apply elem_of_nil in Hin.
    + intros w tx. apply first_bidder_logged_step.
Qed.

Lemma fold_min_agree s1 s2 l :
  (∀ b, b ∈ l → price s1 b = price s2 b) →
  ∀ m, fold_min s1 m l = fold_min s2 m l.
Proof.
  induction l as [|b l IH]; intros Hagree m; [done|]. cbn [fold_min].
  unfold min_step. rewrite (Hagree b) by (apply elem_of_cons; by left).
  destruct (FHE_lt _ m) as [c|]; cbn; [|done].
  destruct (FHE_select c _ m) as [m'|]; cbn; [|done].
  apply IH. intros b' Hb'. apply Hagree, elem_of_cons. by right.
Qed.

Lemma fold_min_snoc s l a : ∀ m,
  fold_min s m (l ++ [a]) = fold_min s m l ≫= λ m', min_step s m' a.
Proof.
  induction l as [|b l IH]; intros m; cbn [fold_min app].
  - cbn. destruct (min_step s m a); reflexivity.
  - destruct (min_step s m b) as [m'|]; cbn; [apply IH|done].
Qed.

(** X11.  From a world reached from a deployment in which the lowest
    bid is computed, let a new identity submit an accepted bid and let
    a [findLowestBid] after it go through: the new lowest bid is one
    [select(lt(p, m), p, m)] of the new ciphertext [p] against the
    previous lowest bid [m]; in plaintext, the smaller of the two. *)
Theorem new_bidder_updates_minimum (L : FHELaws F) self o w0 txs sub fnd h proof p :
  deploy o = Some w0 →
  _lowestBidCalculated (storage (run self txs w0)) = true →
  tx_call sub = CallSubmitBid h proof →
  FHE_fromExternal self (tx_sender sub) h proof = Some p →
  tx_sender sub ∉ _bidders (storage (run self txs w0)) →
  tx_call fnd = CallFindLowestBid →
  succeeds self fnd (run self (txs ++ [sub]) w0) = true →
  ∃ isLess,
    FHE_lt p (_lowestBid (storage (run self txs w0))) = Some isLess
    ∧ FHE_select isLess p (_lowestBid (storage (run self txs w0)))
      = Some (_lowestBid (storage (run self (txs ++ [sub; fnd]) w0)))
    ∧ (getLowestBid (storage (run self (txs ++ [sub; fnd]) w0))).2 = true
    ∧ decrypt32 (_lowestBid (storage (run self (txs ++ [sub; fnd]) w0)))
      = N.min (decrypt32 p) (decrypt32 (_lowestBid (storage (run self txs w0)))).
Proof.
  intros [_ ->]%deploy_Some Hflag Hsub Hp Hnew Hfnd Hok.
  pose proof (minimum_fresh_run self o txs) as Hfresh.
  pose proof (world_inv_run self o txs) as (_ & _ & Hled & _).
  replace (txs ++ [sub; fnd]) with ((txs ++ [sub]) ++ [fnd])
    by (by rewrite <- app_assoc).
  rewrite (run_snoc _ (txs ++ [sub])). rewrite run_snoc in *.
  set (w := run self txs _) in *.
  destruct (Hfresh Hflag) as (first & rest & Hr & Hmin & _).
  rewrite (transact_submit_ok _ _ _ _ _ _ Hsub Hp) in *. cbn [fst] in *.
  assert (exists_ (bid_at (storage w) (tx_sender sub)) = false) as Hex.
  { destruct (exists_ _) eqn:Hex; [|done].
    by apply (ledger_inv_exists _ _ Hled) in Hex. }
  set (w1 := world_after_submit self sub p w) in *.
  assert (_bidders (storage w1) = first :: (rest ++ [tx_sender sub])) as Hr'.
  { unfold w1. cbn. by rewrite Hex, Hr. }
  assert (running_min (storage w1) first (rest ++ [tx_sender sub])
          = min_step (storage w1) (_lowestBid (storage w)) (tx_sender sub))
    as Hnewmin.
  { unfold running_min. rewrite fold_min_snoc.
    assert (∀ b, b ∈ first :: rest → price (storage w1) b = price (storage w) b)
      as Hagree.
    { intros b Hb. unfold price, w1. cbn [storage world_after_submit].
      rewrite bid_at_after_submit_other; [done|].
      intros ->. apply Hnew. by rewrite Hr. }
    rewrite (fold_min_agree (storage w1) (storage w) rest)
      by (intros b Hb; apply Hagree, elem_of_cons; by right).
    rewrite (Hagree first) by (apply elem_of_cons; by left).
    fold (running_min (storage w) first rest). by rewrite Hmin. }
  assert (price (storage w1) (tx_sender sub) = p) as Hprice.
  { unfold price, w1. cbn [storage world_after_submit].
    by rewrite bid_at_after_submit_same. }
  destruct (running_min (storage w1) first (rest ++ [tx_sender sub]))
    as [m'|] eqn:Hm'.
  2: { unfold succeeds in Hok.
       by rewrite (transact_find_refused _ _ _ _ _ Hfnd Hr' Hm') in Hok. }
  rewrite (transact_find_ok _ _ _ _ _ _ Hfnd Hr' Hm'). cbn [fst].
  cbn [storage world_after_find _lowestBid after_find].
  symmetry in Hnewmin. pose proof Hnewmin as Hstep.
  unfold min_step in Hnewmin. rewrite Hprice in Hnewmin.
  destruct (FHE_lt p (_lowestBid (storage w))) as [c|] eqn:Hlt; [|done].
  cbn in Hnewmin. exists c. split; [done|]. split; [done|]. split; [done|].
  rewrite (decrypt_min_step L _ _ _ _ Hstep). by rewrite Hprice.
Qed.

End HistoryFacts.

(** ** Properties of the page and its hook *)

Section PageFacts.

(** X12.  For a non-negative gas estimate the limit sent with
    [submitBid] and [findLowestBid] is the estimate plus a fifth,
    rounded down, hence never below the estimate; when estimation
    fails the limits are 6000000 and 12000000. *)
Theorem gasLimit_bounds (g : Z) :
  (0 ≤ g)%Z →
  UI.findLowestBid_gasLimit (Some g) = UI.submitBid_gasLimit (Some g)
  ∧ (g ≤ UI.submitBid_gasLimit (Some g))%Z
  ∧ (100 * UI.submitBid_gasLimit (Some g) ≤ 120 * g
       < 100 * (UI.submitBid_gasLimit (Some g) + 1))%Z
  ∧ UI.submitBid_gasLimit None = 6000000%Z
  ∧ UI.findLowestBid_gasLimit None = 12000000%Z.
Proof.
  intros Hg. unfold UI.findLowestBid_gasLimit, UI.submitBid_gasLimit, UI.gasLimit.
  cbv zeta. rewrite Z.quot_div_nonneg by lia.
  pose proof (Z.div_mod (g * 120) 100 ltac:(lia)) as Hdm.
  pose proof (Z.mod_pos_bound (g * 120) 100 ltac:(lia)) as Hmod.
  repeat split; try reflexivity; lia.
Qed.

Context {number : Type}.

Lemma handleDecryptBid_update_lookup b (d : number) prev i bid :
  prev !! i = Some bid →
  UI.handleDecryptBid_update b d prev !! i =
    Some (if String.eqb (UI.bidder bid) b
          then {| UI.bidder := UI.bidder bid;
                  UI.encryptedPrice := UI.encryptedPrice bid;
                  UI.timestamp := UI.timestamp bid;
                  UI.decryptedPrice := Some d |}
          else bid).
Proof.
  intros Hi. unfold UI.handleDecryptBid_update.
  change (map ?f ?l) with (f <$> l). by rewrite list_lookup_fmap, Hi.
Qed.

(** X13.  Recording a decrypted price on the page keeps the rows, their
    order, and every row's bidder, ciphertext and time; every row of
    the given bidder then shows the price; rows of other bidders,
    prices already shown included, are untouched; and doing it twice
    is doing it once. *)
Theorem handleDecryptBid_update_spec b (d : number) (prev : list UI.BidInfo) :
  map UI.bidder (UI.handleDecryptBid_update b d prev) = map UI.bidder prev
  ∧ map UI.encryptedPrice (UI.handleDecryptBid_update b d prev)
      = map UI.encryptedPrice prev
  ∧ map UI.timestamp (UI.handleDecryptBid_update b d prev) = map UI.timestamp prev
  ∧ (∀ bid, bid ∈ UI.handleDecryptBid_update b d prev →
            UI.bidder bid = b → UI.decryptedPrice bid = Some d)
  ∧ (∀ i bid, prev !! i = Some bid → UI.bidder bid ≠ b →
            UI.handleDecryptBid_update b d prev !! i = Some bid)
  ∧ UI.handleDecryptBid_update b d (UI.handleDecryptBid_update b d prev)
      = UI.handleDecryptBid_update b d prev.
Proof.
  unfold UI.handleDecryptBid_update. repeat split.
  - rewrite map_map. apply map_ext. intros bid. by destruct (String.eqb _ _).
  - rewrite map_map. apply map_ext. intros bid. by destruct (String.eqb _ _).
  - rewrite map_map. apply map_ext. intros bid. by destruct (String.eqb _ _).
  - intros bid [bid0 [-> _]]%list_elem_of_fmap.
    destruct (String.eqb (UI.bidder bid0) b) eqn:Heq; cbn; [done|].
    intros Hb. apply String.eqb_neq in Heq. done.
  - intros i bid Hi Hne. fold (UI.handleDecryptBid_update b d prev).
    rewrite (handleDecryptBid_update_lookup b d prev i bid Hi).
    apply String.eqb_neq in Hne. by rewrite Hne.
  - rewrite map_map. apply map_ext. intros bid.
    destruct (String.eqb (UI.bidder bid) b) eqn:Heq; cbn; by rewrite Heq.
Qed.

End PageFacts.

(** ** The further properties on the test ledger *)

Section CoverageChecks.
Import Scenario.
Local Existing Instance Stub.service.

Lemma organizer_never_changes_witness :
  deploy organizer_ = Some world0
  ∧ transact self {| tx_sender := bob; tx_time := 15; tx_call := CallOrganizer |}
      (run self resubmitted world0)
    = (run self resubmitted world0, Some (VAddress organizer_)).
Proof.
  split; [reflexivity|].
  exact (proj2 (organizer_never_changes self organizer_ world0 resubmitted
                  {| tx_sender := bob; tx_time := 15; tx_call := CallOrganizer |}
                  eq_refl eq_refl)).
Defined.

Lemma views_agree_witness :
  deploy organizer_ = Some world0
  ∧ (hasBid bob (storage (run self resubmitted world0)) = true
       ↔ bob ∈ getAllBidders (storage (run self resubmitted world0)))
  ∧ length (getAllBidders (storage (run self resubmitted world0))) = 3%nat.
Proof.
  split; [reflexivity|].
  destruct (views_agree self organizer_ world0 resubmitted bob eq_refl)
    as (Hiff & _ & _ & Hlen).
  split; [exact Hiff|]. reflexivity.
Defined.

Lemma submitBid_effects_witness :
  deploy organizer_ = Some world0
  ∧ FHE_fromExternal self alice (900 : N) proof = Some (900 : N)
  ∧ getBid alice
      (storage (transact self (submit alice 14 900) (run self evaluated world0)).1)
    = (900, alice, 14, true).
Proof.
  split; [reflexivity|]. split; [reflexivity|].
  exact (proj1 (proj2 (submitBid_effects self organizer_ world0 evaluated
                         (submit alice 14 900) (900 : N) proof (900 : N)
                         eq_refl eq_refl eq_refl))).
Defined.

Lemma getBid_is_latest_submission_witness :
  deploy organizer_ = Some world0
  ∧ latest_submission self resubmitted alice = Some (900, 14)
  ∧ getBid alice (storage (run self resubmitted world0)) = (900, alice, 14, true).
Proof.
  split; [reflexivity|]. split; [reflexivity|].
  rewrite (getBid_is_latest_submission self organizer_ world0 resubmitted alice
             eq_refl).
  reflexivity.
Defined.

Lemma getLowestBid_is_current_minimum_witness :
  deploy organizer_ = Some world0
  ∧ getLowestBid (storage (run self evaluated world0)) = (800, true)
  ∧ ∀ a, a ∈ _bidders (storage (run self evaluated world0)) →
         800 ≤ decrypt32 (price (storage (run self evaluated world0)) a).
Proof.
  split; [reflexivity|]. split; [reflexivity|].
  destruct (getLowestBid_is_current_minimum Stub_laws self organizer_ world0
              evaluated (800 : N) eq_refl eq_refl)
    as (first & rest & _ & _ & _ & Hle).
  exact Hle.
Defined.

Lemma organizer_is_granted_every_ciphertext_witness :
  deploy organizer_ = Some world0
  ∧ grants_cover self organizer_ (run self resubmitted world0).
Proof.
  split; [reflexivity|].
  exact (organizer_is_granted_every_ciphertext self organizer_ world0
           resubmitted eq_refl).
Defined.

Lemma log_records_committed_mutations_witness :
  deploy organizer_ = Some world0
  ∧ events (trace (run self resubmitted world0))
    = [BidSubmitted alice 10; BidSubmitted bob 11; BidSubmitted charlie 12;
       LowestBidCalculated alice 13; BidSubmitted alice 14]
  ∧ Forall2 logs_tx
      (filter (λ t, is_mutation (tx_call t) = true)
         (committed self resubmitted world0))
      (events (trace (run self resubmitted world0))).
Proof.
  split; [reflexivity|]. split; [reflexivity|].
  exact (proj1 (log_records_committed_mutations self organizer_ world0
                  resubmitted eq_refl)).
Defined.

Lemma new_bidder_updates_minimum_witness :
  deploy organizer_ = Some world0
  ∧ _lowestBidCalculated (storage (run self evaluated world0)) = true
  ∧ (4 ∉ _bidders (storage (run self evaluated world0)))
  ∧ succeeds self (find bob 15)
      (run self (evaluated ++ [submit 4 14 500]) world0) = true
  ∧ decrypt32
      (_lowestBid
         (storage (run self (evaluated ++ [submit 4 14 500; find bob 15]) world0)))
    = 500.
Proof.
  split; [reflexivity|]. split; [reflexivity|].
  assert (4 ∉ _bidders (storage (run self evaluated world0))) as Hnew.
  { assert (_bidders (storage (run self evaluated world0))
            = [alice; bob; charlie]) as -> by reflexivity.
    rewrite !elem_of_cons, elem_of_nil. intros [?|[?|[?|[]]]]; discriminate. }
  split; [exact Hnew|]. split; [reflexivity|].
  destruct (new_bidder_updates_minimum Stub_laws self organizer_ world0
              evaluated (submit 4 14 500) (find bob 15) (500 : N) proof
              (500 : N) eq_refl eq_refl eq_refl eq_refl Hnew eq_refl eq_refl)
    as (isLess & _ & _ & _ & Hmin).
  rewrite Hmin. reflexivity.
Defined.

Lemma gasLimit_bounds_witness :
  (0 ≤ 101)%Z ∧ UI.submitBid_gasLimit (Some 101%Z) = 121%Z
  ∧ (101 ≤ UI.submitBid_gasLimit (Some 101%Z))%Z.
Proof.
  split; [lia|]. split; [reflexivity|].
  exact (proj1 (proj2 (gasLimit_bounds 101 ltac:(lia)))).
Defined.

End CoverageChecks.

(** ** The minimum and the order of the roster *)

Section RosterOrder.
Context {F : FHEService} (L : FHELaws F).

Lemma running_min_least s first rest m :
  running_min s first rest = Some m →
  (∃ a, a ∈ first :: rest ∧ decrypt32 m = decrypt32 (price s a))
  ∧ (∀ a, a ∈ first :: rest → decrypt32 m ≤ decrypt32 (price s a)).
Proof.
  intros Hm.
  destruct (decrypt_fold_min_step L s rest (price s first) m Hm)
    as (Hle & Hall & Hmem).
  split.
  - destruct Hmem as [Heq|(a & Ha & Heq)].
    + exists first. split; [apply elem_of_cons; by left|done].
    + exists a. split; [apply elem_of_cons; by right|done].
  - intros a [->|Ha]%elem_of_cons; [done|by apply Hall].
Qed.

(** X14.  The plaintext of the lowest bid does not depend on the order
    of the roster: on two ledgers whose rosters are permutations of
    one another and whose members' bids have the same plaintexts,
    two completed [findLowestBid] calls store results that decrypt to
    the same value. *)
Theorem minimum_independent_of_roster_order env1 env2 s1 s2 s1' out1 s2' out2 :
  _bidders s1 ≡ₚ _bidders s2 →
  (∀ a, a ∈ _bidders s1 → decrypt32 (price s1 a) = decrypt32 (price s2 a)) →
  findLowestBid env1 s1 = Done tt s1' out1 →
  findLowestBid env2 s2 = Done tt s2' out2 →
  decrypt32 (_lowestBid s1') = decrypt32 (_lowestBid s2').
Proof.
  intros Hperm Hsame
    (f1 & r1 & m1 & Hr1 & Hm1 & -> & _)%findLowestBid_Done_inv
    (f2 & r2 & m2 & Hr2 & Hm2 & -> & _)%findLowestBid_Done_inv.
  cbn [_lowestBid after_find]. rewrite Hr1, Hr2 in *.
  destruct (running_min_least s1 f1 r1 m1 Hm1) as [(a1 & Ha1 & Heq1) Hall1].
  destruct (running_min_least s2 f2 r2 m2 Hm2) as [(a2 & Ha2 & Heq2) Hall2].
  assert (a1 ∈ f2 :: r2) as Ha1' by by rewrite <- Hperm.
  assert (a2 ∈ f1 :: r1) as Ha2' by by rewrite Hperm.
  pose proof (Hall2 a1 Ha1') as H21. pose proof (Hall1 a2 Ha2') as H12.
  rewrite <- (Hsame a1 Ha1) in H21. rewrite (Hsame a2 Ha2') in H12. lia.
Qed.

End RosterOrder.

Section RosterOrderCheck.
Import Scenario.
Local Existing Instance Stub.service.

Lemma minimum_independent_of_roster_order_witness :
  _bidders ledger3
    ≡ₚ _bidders (storage (run self [submit bob 1 800; submit charlie 2 1200;
                                     submit alice 3 1000] world0))
  ∧ findLowestBid env_find ledger3
    = Done tt (after_find ledger3 alice 800)
        [Allow 800 self; Allow 800 organizer_; Emit (LowestBidCalculated alice 13)]
  ∧ ∃ s2' out2,
      findLowestBid env_find
        (storage (run self [submit bob 1 800; submit charlie 2 1200;
                            submit alice 3 1000] world0))
      = Done tt s2' out2
      ∧ decrypt32 (_lowestBid s2') = 800.
Proof.
  assert (_bidders ledger3
      ≡ₚ _bidders (storage (run self [submit bob 1 800; submit charlie 2 1200;
                                       submit alice 3 1000] world0))) as Hperm.
  { change ([alice; bob; charlie] ≡ₚ [bob; charlie; alice]).
    apply (Permutation_cons_append [bob; charlie] alice). }
  pose proof (findLowestBid_done env_find ledger3 alice [bob; charlie] 800
                eq_refl eq_refl) as Hrun1.
  pose proof (findLowestBid_done env_find
                (storage (run self [submit bob 1 800; submit charlie 2 1200;
                                    submit alice 3 1000] world0))
                bob [charlie; alice] 800 eq_refl eq_refl) as Hrun2.
  assert (∀ a, a ∈ _bidders ledger3 →
            decrypt32 (price ledger3 a)
            = decrypt32 (price (storage (run self [submit bob 1 800;
                  submit charlie 2 1200; submit alice 3 1000] world0)) a))
    as Hsame.
  { assert (_bidders ledger3 = [alice; bob; charlie]) as -> by reflexivity.
    intros a. rewrite !elem_of_cons, elem_of_nil.
    intros [->|[->|[->|[]]]]; reflexivity. }
  pose proof (minimum_independent_of_roster_order Stub_laws env_find env_find _ _ _ _ _ _
                Hperm Hsame Hrun1 Hrun2) as Heq.
  split; [exact Hperm|]. split; [exact Hrun1|].
  eexists _, _. split; [exact Hrun2|].
  rewrite <- Heq. reflexivity.
Defined.

End RosterOrderCheck.

(** ** Thirty-one bidders on the capped service *)

Section CrowdChecks.
Import Crowd.
Local Existing Instance Capped.service.

(** With thirty bidders every comparison and selection is accepted. *)
Example thirty_bidders_accepted :
  succeeds self find (run self (bids 30) world0) = true
  ∧ decrypt32 (getLowestBid (storage (run self (bids 30 ++ [find]) world0))).1
    = 1001.
Proof. split; vm_compute; reflexivity. Qed.

(** C1, counterexample.  On a roster of thirty-one bidders the capped
    service, which honours the comparison and selection contracts,
    refuses the thirtieth comparison: [findLowestBid] fails and no
    minimum is stored. *)
Lemma minimum_refused_on_long_roster :
  FHELaws Capped.service
  ∧ length (_bidders (ledger 31)) = 31%nat
  ∧ outcome_error (findLowestBid env_find (ledger 31)) = Some FHEOperationReverted
  ∧ getLowestBid (storage (run self (bids 31 ++ [find]) world0)) = ((0, O), false)
  ∧ ¬ minimum_on_every_roster.
Proof.
  assert (outcome_error (findLowestBid env_find (ledger 31))
          = Some FHEOperationReverted) as Herr by (vm_compute; reflexivity).
  split; [exact Capped_laws|]. split; [vm_compute; reflexivity|].
  split; [exact Herr|]. split; [vm_compute; reflexivity|].
  intros Hclaim.
  assert (∃ first rest, _bidders (ledger 31) = first :: rest)
    as (first & rest & Hr) by (vm_compute; eauto).
  destruct (Hclaim env_find (ledger 31) first rest Hr) as (s' & out & Hrun & _).
  rewrite Hrun in Herr. clear -Herr. discriminate Herr.
Qed.

(** C8, counterexample.  On the same ledger, which is not empty, the
    first of two consecutive [findLowestBid] calls already fails. *)
Lemma evaluation_refused_on_long_roster :
  _bidders (ledger 31) ≠ []
  ∧ succeeds self find (run self (bids 31) world0) = false
  ∧ ¬ evaluation_twice_succeeds.
Proof.
  assert (_bidders (ledger 31) ≠ []) as Hne by (vm_compute; discriminate).
  split; [exact Hne|]. split; [vm_compute; reflexivity|].
  intros Hclaim.
  destruct (Hclaim env_find env_find (ledger 31) Hne)
    as (s1 & out1 & s2 & out2 & Hrun & _).
  assert (outcome_error (findLowestBid env_find (ledger 31))
          = Some FHEOperationReverted) as Herr by (vm_compute; reflexivity).
  rewrite Hrun in Herr. clear -Herr. discriminate Herr.
Qed.

End CrowdChecks.
